(** * Ludo server: rules engine, turn controller and room manager

    A shallow embedding of [src/index.js].

    - Numbers are [Z].  The JS remainder [%] is [Z.rem] (truncated, sign
      of the dividend); the two agree whenever the divisor is not 0, and
      the handlers divide by [playerCount] only on behalf of a player of
      the room, where it is positive ([Turn.current_player_in_range]).
    - Objects used as ordered maps ([room.players], the [rooms] Map) are
      association lists in insertion order.
    - Functions that mutate their argument in place return the updated
      value next to their result; a handler returns the registry it
      leaves behind and the events it emitted.
    - A piece slot sent by a client is an integer; [undefined] is [None]. *)

From Stdlib Require Import ZArith List String Bool Lia.
Import ListNotations.
Open Scope string_scope.
Open Scope Z_scope.

(** ** Board geometry *)

Inductive Color := red | green | yellow | blue.

Definition Color_eqb (a b : Color) : bool :=
  match a, b with
  | red, red | green, green | yellow, yellow | blue, blue => true
  | _, _ => false
  end.

Definition BOARD_SIZE : Z := 52.

Definition START_POSITIONS (color : Color) : Z :=
  match color with
  | red => 1
  | green => 14
  | yellow => 27
  | blue => 40
  end.

Definition HOME_STRETCH_START (color : Color) : Z :=
  match color with
  | red => 51
  | green => 12
  | yellow => 25
  | blue => 38
  end.

Definition SAFE_POSITIONS : list Z := [1; 9; 14; 22; 27; 35; 40; 48].

(** [Array.prototype.includes] on numbers. *)
Definition includes (l : list Z) (x : Z) : bool := existsb (Z.eqb x) l.

(** ** Pieces *)

Record Piece := mkPiece {
  position : Z;
  homeIndex : Z;
  isInHomeStretch : bool
}.

Definition set_position (p : Piece) (x : Z) : Piece :=
  mkPiece x (homeIndex p) (isInHomeStretch p).

Definition set_isInHomeStretch (p : Piece) (b : bool) : Piece :=
  mkPiece (position p) (homeIndex p) b.

(** The [pieces] object of a game state: one array per colour, in the
    key order of the object literal (red, green, yellow, blue). *)
Record Pieces := mkPieces {
  pieces_red : list Piece;
  pieces_green : list Piece;
  pieces_yellow : list Piece;
  pieces_blue : list Piece
}.

Definition pieces_of (ps : Pieces) (color : Color) : list Piece :=
  match color with
  | red => pieces_red ps
  | green => pieces_green ps
  | yellow => pieces_yellow ps
  | blue => pieces_blue ps
  end.

Definition set_pieces_of (ps : Pieces) (color : Color) (l : list Piece) : Pieces :=
  match color with
  | red => mkPieces l (pieces_green ps) (pieces_yellow ps) (pieces_blue ps)
  | green => mkPieces (pieces_red ps) l (pieces_yellow ps) (pieces_blue ps)
  | yellow => mkPieces (pieces_red ps) (pieces_green ps) l (pieces_blue ps)
  | blue => mkPieces (pieces_red ps) (pieces_green ps) (pieces_yellow ps) l
  end.

(** [Object.entries(gameState.pieces)] visits the colours in this order. *)
Definition piece_colors : list Color := [red; green; yellow; blue].

(** Array read [a[i]] for an integer [i]: [None] is JS [undefined]. *)
Definition js_index {A} (l : list A) (i : Z) : option A :=
  if i <? 0 then None else nth_error l (Z.to_nat i).

(** Array write through an alias of the element [a[i]]. *)
Fixpoint set_nth {A} (l : list A) (i : nat) (x : A) : list A :=
  match l, i with
  | [], _ => []
  | _ :: t, O => x :: t
  | h :: t, S j => h :: set_nth t j x
  end.

Definition initial_pieces_row : list Piece :=
  [mkPiece (-1) 0 false; mkPiece (-1) 1 false;
   mkPiece (-1) 2 false; mkPiece (-1) 3 false].

(** ** Rules engine *)

Definition canMovePiece (piece : Piece) (diceValue : Z) (color : Color) : bool :=
  if position piece =? -1 then diceValue =? 6
  else if isInHomeStretch piece then
    let homeStretchPosition := position piece - 100 in
    homeStretchPosition + diceValue <=? 6
  else true.

Record MoveResult := mkMoveResult {
  moved : bool;
  captured : option (Color * nat)
}.

(** [movePiece] mutates [piece]; the updated piece is the first component. *)
Definition movePiece (piece : Piece) (diceValue : Z) (color : Color)
  : Piece * MoveResult :=
  if (position piece =? -1) && (diceValue =? 6) then
    (set_position piece (START_POSITIONS color), mkMoveResult true None)
  else if position piece =? -1 then
    (piece, mkMoveResult false None)
  else if isInHomeStretch piece then
    let homeStretchPosition := position piece - 100 in
    if homeStretchPosition + diceValue <=? 6 then
      (set_position piece (100 + homeStretchPosition + diceValue),
       mkMoveResult true None)
    else (piece, mkMoveResult false None)
  else
    let newPosition := Z.rem (position piece + diceValue) BOARD_SIZE in
    let homeStretchStart := HOME_STRETCH_START color in
    if (position piece <=? homeStretchStart) && (newPosition >? homeStretchStart)
    then
      let stepsIntoHomeStretch := newPosition - homeStretchStart in
      if stepsIntoHomeStretch <=? 6 then
        (set_isInHomeStretch
           (set_position piece (100 + stepsIntoHomeStretch)) true,
         mkMoveResult true None)
      else (set_position piece newPosition, mkMoveResult true None)
    else (set_position piece newPosition, mkMoveResult true None).

(** The inner loop of [checkCapture] over one colour's array, from slot
    [i] on: the first piece at [newPosition] outside its home stretch is
    sent home. *)
Fixpoint capture_scan (pieces : list Piece) (i : nat) (newPosition : Z)
  : option (nat * list Piece) :=
  match pieces with
  | [] => None
  | otherPiece :: rest =>
      if (position otherPiece =? newPosition)
         && negb (isInHomeStretch otherPiece) then
        Some (i, set_isInHomeStretch (set_position otherPiece (-1)) false :: rest)
      else
        match capture_scan rest (S i) newPosition with
        | Some (j, rest') => Some (j, otherPiece :: rest')
        | None => None
        end
  end.

(** The outer loop of [checkCapture] over the colours still to visit. *)
Fixpoint capture_colors (entries : list Color) (ps : Pieces) (color : Color)
  (newPosition : Z) : Pieces * option (Color * nat) :=
  match entries with
  | [] => (ps, None)
  | otherColor :: rest =>
      if Color_eqb otherColor color then capture_colors rest ps color newPosition
      else
        match capture_scan (pieces_of ps otherColor) 0 newPosition with
        | Some (i, l) => (set_pieces_of ps otherColor l, Some (otherColor, i))
        | None => capture_colors rest ps color newPosition
        end
  end.

(** [checkCapture] reads and writes only the [pieces] of the game state. *)
Definition checkCapture (ps : Pieces) (movedPiece : Piece) (color : Color)
  (newPosition : Z) : Pieces * option (Color * nat) :=
  if includes SAFE_POSITIONS newPosition then (ps, None)
  else capture_colors piece_colors ps color newPosition.

Fixpoint with_index {A} (l : list A) (i : nat) : list (A * nat) :=
  match l with
  | [] => []
  | x :: t => (x, i) :: with_index t (S i)
  end.

Definition getMovablePieces (ps : Pieces) (color : Color) (diceValue : Z)
  : list (Piece * nat) :=
  filter (fun pi => canMovePiece (fst pi) diceValue color)
         (with_index (pieces_of ps color) 0).

Definition hasWon (ps : Pieces) (color : Color) : bool :=
  forallb (fun piece => isInHomeStretch piece && (position piece =? 106))
          (pieces_of ps color).

(** ** Objects and Maps keyed by strings

    [Object.keys] and [Map] iteration follow insertion order.  (An object
    lists keys that are array indices first; socket ids are 20-character
    base64 strings and never are.)  Writing an existing key keeps its
    place; a new key goes last. *)

Definition Obj (V : Type) : Type := list (string * V).

Fixpoint obj_get {V} (o : Obj V) (k : string) : option V :=
  match o with
  | [] => None
  | (k', v) :: t => if String.eqb k' k then Some v else obj_get t k
  end.

Fixpoint obj_set {V} (o : Obj V) (k : string) (v : V) : Obj V :=
  match o with
  | [] => [(k, v)]
  | (k', v') :: t =>
      if String.eqb k' k then (k, v) :: t else (k', v') :: obj_set t k v
  end.

Fixpoint obj_delete {V} (o : Obj V) (k : string) : Obj V :=
  match o with
  | [] => []
  | (k', v') :: t =>
      if String.eqb k' k then obj_delete t k else (k', v') :: obj_delete t k
  end.

Definition obj_keys {V} (o : Obj V) : list string := map fst o.
Definition obj_values {V} (o : Obj V) : list V := map snd o.

(** ** Rooms *)

(** [color] is [None] when [colors.find] found nothing ([undefined]). *)
Record Player := mkPlayer {
  name : string;
  color : option Color;
  isHost : bool
}.

Definition set_isHost (p : Player) (b : bool) : Player :=
  mkPlayer (name p) (color p) b.

Record Room := mkRoom {
  players : Obj Player;
  currentPlayer : Z;
  gameStarted : bool;
  diceValue : Z;
  lastRoll : option Z;
  canRollAgain : bool;
  pieces : Pieces;
  roomCode : string;
  playerCount : Z
}.

Definition set_players (r : Room) (x : Obj Player) : Room :=
  mkRoom x (currentPlayer r) (gameStarted r) (diceValue r) (lastRoll r)
         (canRollAgain r) (pieces r) (roomCode r) (playerCount r).
Definition set_currentPlayer (r : Room) (x : Z) : Room :=
  mkRoom (players r) x (gameStarted r) (diceValue r) (lastRoll r)
         (canRollAgain r) (pieces r) (roomCode r) (playerCount r).
Definition set_gameStarted (r : Room) (x : bool) : Room :=
  mkRoom (players r) (currentPlayer r) x (diceValue r) (lastRoll r)
         (canRollAgain r) (pieces r) (roomCode r) (playerCount r).
Definition set_diceValue (r : Room) (x : Z) : Room :=
  mkRoom (players r) (currentPlayer r) (gameStarted r) x (lastRoll r)
         (canRollAgain r) (pieces r) (roomCode r) (playerCount r).
Definition set_lastRoll (r : Room) (x : option Z) : Room :=
  mkRoom (players r) (currentPlayer r) (gameStarted r) (diceValue r) x
         (canRollAgain r) (pieces r) (roomCode r) (playerCount r).
Definition set_canRollAgain (r : Room) (x : bool) : Room :=
  mkRoom (players r) (currentPlayer r) (gameStarted r) (diceValue r) (lastRoll r)
         x (pieces r) (roomCode r) (playerCount r).
Definition set_pieces (r : Room) (x : Pieces) : Room :=
  mkRoom (players r) (currentPlayer r) (gameStarted r) (diceValue r) (lastRoll r)
         (canRollAgain r) x (roomCode r) (playerCount r).
Definition set_playerCount (r : Room) (x : Z) : Room :=
  mkRoom (players r) (currentPlayer r) (gameStarted r) (diceValue r) (lastRoll r)
         (canRollAgain r) (pieces r) (roomCode r) x.

Definition Rooms : Type := Obj Room.

(** [createGameState()] with the creator already entered and the two
    fields the [create-room] handler spreads in. *)
Definition createGameState (creator : string) (p : Player) (code : string)
  : Room :=
  mkRoom [(creator, p)] 0 false 1 None false
         (mkPieces initial_pieces_row initial_pieces_row
                   initial_pieces_row initial_pieces_row)
         code 1.

(** ** Outbound events

    Payloads keep the fields the rules decide; the [gameState] snapshot
    that accompanies most of them is left out. *)

Inductive Event :=
| room_created (code : string)
| joined_room
| player_joined (p : Player)
| room_error (msg : string)
| game_error (msg : string)
| game_started
| dice_rolled (diceValue currentPlayer : Z) (movablePieces : list nat)
              (canRollAgain : bool)
| turn_switched (currentPlayer : Z)
| piece_moved (playerColor : Color) (pieceIndex oldPosition newPosition : Z)
              (captured : option (Color * nat)) (hasWon anotherTurn : bool)
| game_won (winner : Color) (playerName : string)
| player_left (playerId : string).

(** [socket.emit] reaches the requester only, [io.to(code).emit] the room. *)
Inductive Emit :=
| ToSocket (id : string) (e : Event)
| ToRoom (code : string) (e : Event).

(** What a handler leaves behind: the registry and the events emitted,
    either on return or at the point where a [TypeError] was thrown. *)
Inductive Outcome :=
| Returned (rooms : Rooms) (out : list Emit)
| Threw (rooms : Rooms) (out : list Emit).

Definition rooms_of (o : Outcome) : Rooms :=
  match o with Returned r _ | Threw r _ => r end.

Definition events_of (o : Outcome) : list Emit :=
  match o with Returned _ e | Threw _ e => e end.

(** ** Room manager and turn controller: the socket handlers

    [sid] is [socket.id].  The two random draws are arguments: the code
    [generateRoomCode()] returned and the die [Math.floor(Math.random() * 6) + 1]. *)

Definition create_room (rooms : Rooms) (sid playerName roomCode : string)
  : Outcome :=
  let gameState :=
    createGameState sid (mkPlayer playerName (Some red) true) roomCode in
  Returned (obj_set rooms roomCode gameState)
           [ToSocket sid (room_created roomCode)].

Definition colors : list Color := [red; green; yellow; blue].

Definition same_color (a : option Color) (b : Color) : bool :=
  match a with
  | Some a' => Color_eqb a' b
  | None => false
  end.

Definition join_room (rooms : Rooms) (sid roomCode playerName : string)
  : Outcome :=
  match obj_get rooms roomCode with
  | None => Returned rooms [ToSocket sid (room_error "Room not found")]
  | Some room =>
      if playerCount room >=? 4 then
        Returned rooms [ToSocket sid (room_error "Room is full")]
      else if gameStarted room then
        Returned rooms [ToSocket sid (room_error "Game already started")]
      else
        let usedColors := map color (obj_values (players room)) in
        let availableColor :=
          find (fun color => negb (existsb (fun u => same_color u color) usedColors))
               colors in
        let player := mkPlayer playerName availableColor false in
        let room1 := set_players room (obj_set (players room) sid player) in
        let room2 := set_playerCount room1 (playerCount room1 + 1) in
        Returned (obj_set rooms roomCode room2)
                 [ToSocket sid joined_room;
                  ToRoom roomCode (player_joined player)]
  end.

(** [room.players[socket.id]?.isHost], with [undefined] read as false. *)
Definition isHost_of (ps : Obj Player) (sid : string) : bool :=
  match obj_get ps sid with
  | Some p => isHost p
  | None => false
  end.

Definition start_game (rooms : Rooms) (sid roomCode : string) : Outcome :=
  match obj_get rooms roomCode with
  | None =>
      Returned rooms [ToSocket sid (game_error "Not authorized to start game")]
  | Some room =>
      if negb (isHost_of (players room) sid) then
        Returned rooms [ToSocket sid (game_error "Not authorized to start game")]
      else if playerCount room <? 2 then
        Returned rooms
                 [ToSocket sid (game_error "Need at least 2 players to start")]
      else
        Returned (obj_set rooms roomCode (set_gameStarted room true))
                 [ToRoom roomCode game_started]
  end.

(** [socket.id !== playerIds[room.currentPlayer]]. *)
Definition not_current (sid : string) (room : Room) : bool :=
  match js_index (obj_keys (players room)) (currentPlayer room) with
  | Some currentPlayerId => negb (String.eqb sid currentPlayerId)
  | None => true
  end.

Definition roll_dice (rooms : Rooms) (sid roomCode : string) (diceValue : Z)
  : Outcome :=
  match obj_get rooms roomCode with
  | None => Returned rooms []
  | Some room =>
      if negb (gameStarted room) then Returned rooms []
      else if not_current sid room then
        Returned rooms [ToSocket sid (game_error "Not your turn")]
      else
        let room1 := set_lastRoll (set_diceValue room diceValue) (Some diceValue) in
        match obj_get (players room1) sid with
        | None => Threw (obj_set rooms roomCode room1) []
        | Some player =>
            match color player with
            | None =>
                (* [gameState.pieces[undefined].map] *)
                Threw (obj_set rooms roomCode room1) []
            | Some playerColor =>
                let movablePieces :=
                  getMovablePieces (pieces room1) playerColor diceValue in
                let room2 := set_canRollAgain room1 (diceValue =? 6) in
                let rolled :=
                  ToRoom roomCode
                    (dice_rolled diceValue (currentPlayer room2)
                                 (map snd movablePieces) (canRollAgain room2)) in
                if (List.length movablePieces =? 0)%nat && negb (diceValue =? 6) then
                  let room3 :=
                    set_currentPlayer room2
                      (Z.rem (currentPlayer room2 + 1) (playerCount room2)) in
                  let room4 := set_canRollAgain room3 false in
                  Returned (obj_set rooms roomCode room4)
                           [rolled;
                            ToRoom roomCode (turn_switched (currentPlayer room4))]
                else
                  Returned (obj_set rooms roomCode room2) [rolled]
            end
        end
  end.

(** [room.lastRoll === 6]; [lastRoll] is [null] before the first roll. *)
Definition lastRoll_is_6 (room : Room) : bool :=
  match lastRoll room with
  | Some v => v =? 6
  | None => false
  end.

Definition is_captured (c : option (Color * nat)) : bool :=
  match c with Some _ => true | None => false end.

Definition move_piece (rooms : Rooms) (sid roomCode : string) (pieceIndex : Z)
  : Outcome :=
  match obj_get rooms roomCode with
  | None => Returned rooms []
  | Some room =>
      if negb (gameStarted room) then Returned rooms []
      else if not_current sid room then Returned rooms []
      else
        match obj_get (players room) sid with
        | None => Threw rooms []
        | Some player =>
            match color player with
            | None => Threw rooms [] (* [room.pieces[undefined][pieceIndex]] *)
            | Some playerColor =>
                match js_index (pieces_of (pieces room) playerColor) pieceIndex with
                | None => Threw rooms [] (* [piece.position] of [undefined] *)
                | Some piece =>
                    let diceValue := diceValue room in
                    if negb (canMovePiece piece diceValue playerColor) then
                      Returned rooms [ToSocket sid (game_error "Invalid move")]
                    else
                      let oldPosition := position piece in
                      let (piece1, moveResult) :=
                        movePiece piece diceValue playerColor in
                      let room1 :=
                        set_pieces room
                          (set_pieces_of (pieces room) playerColor
                             (set_nth (pieces_of (pieces room) playerColor)
                                      (Z.to_nat pieceIndex) piece1)) in
                      if negb (moved moveResult) then
                        Returned (obj_set rooms roomCode room1)
                          [ToSocket sid (game_error "Cannot move this piece")]
                      else
                        let (pieces2, captured) :=
                          if negb (position piece1 =? -1)
                             && negb (isInHomeStretch piece1)
                          then checkCapture (pieces room1) piece1 playerColor
                                            (position piece1)
                          else (pieces room1, None) in
                        let room2 := set_pieces room1 pieces2 in
                        let hasPlayerWon := hasWon (pieces room2) playerColor in
                        let anotherTurn :=
                          lastRoll_is_6 room2 || is_captured captured in
                        let room3 :=
                          if negb anotherTurn || hasPlayerWon then
                            set_canRollAgain
                              (set_currentPlayer room2
                                 (Z.rem (currentPlayer room2 + 1)
                                        (playerCount room2)))
                              false
                          else room2 in
                        Returned (obj_set rooms roomCode room3)
                          (ToRoom roomCode
                             (piece_moved playerColor pieceIndex oldPosition
                                (position piece1) captured hasPlayerWon
                                anotherTurn)
                           :: if hasPlayerWon then
                                [ToRoom roomCode
                                   (game_won playerColor (name player))]
                              else [])
                end
            end
        end
  end.

(** The body run for the first room that holds [sid]: the player is
    deleted, and only then is [room.players[socket.id]?.isHost] read. *)
Definition leave_room (rooms : Rooms) (sid roomCode : string) (room : Room)
  : Rooms * list Emit :=
  let room1 := set_players room (obj_delete (players room) sid) in
  let room2 := set_playerCount room1 (playerCount room1 - 1) in
  if playerCount room2 =? 0 then (obj_delete rooms roomCode, [])
  else
    let room3 :=
      if isHost_of (players room2) sid then
        let remainingPlayers := obj_keys (players room2) in
        match remainingPlayers with
        | first :: _ =>
            match obj_get (players room2) first with
            | Some p =>
                set_players room2
                  (obj_set (players room2) first (set_isHost p true))
            | None => room2
            end
        | [] => room2
        end
      else room2 in
    (obj_set rooms roomCode room3, [ToRoom roomCode (player_left sid)]).

Fixpoint disconnect_loop (entries : list (string * Room)) (rooms : Rooms)
  (sid : string) : Rooms * list Emit :=
  match entries with
  | [] => (rooms, [])
  | (roomCode, room) :: rest =>
      match obj_get (players room) sid with
      | Some _ => leave_room rooms sid roomCode room
      | None => disconnect_loop rest rooms sid
      end
  end.

Definition disconnect (rooms : Rooms) (sid : string) : Outcome :=
  let (rooms', out) := disconnect_loop rooms rooms sid in
  Returned rooms' out.

(** ** Runs of the server *)

Inductive Request :=
| CreateRoom (playerName roomCode : string)
| JoinRoom (roomCode playerName : string)
| StartGame (roomCode : string)
| RollDice (roomCode : string) (diceValue : Z)
| MovePiece (roomCode : string) (pieceIndex : Z)
| Disconnect.

Definition handle (rooms : Rooms) (sid : string) (req : Request) : Outcome :=
  match req with
  | CreateRoom playerName roomCode => create_room rooms sid playerName roomCode
  | JoinRoom roomCode playerName => join_room rooms sid roomCode playerName
  | StartGame roomCode => start_game rooms sid roomCode
  | RollDice roomCode d => roll_dice rooms sid roomCode d
  | MovePiece roomCode pieceIndex => move_piece rooms sid roomCode pieceIndex
  | Disconnect => disconnect rooms sid
  end.

(** The die shows 1 to 6; everything else a client sends is unconstrained. *)
Definition well_formed (req : Request) : Prop :=
  match req with
  | RollDice _ d => 1 <= d <= 6
  | _ => True
  end.

Fixpoint run (rooms : Rooms) (trace : list (string * Request)) : Rooms :=
  match trace with
  | [] => rooms
  | (sid, req) :: rest => run (rooms_of (handle rooms sid req)) rest
  end.

Inductive reachable : Rooms -> Prop :=
| reachable_start : reachable []
| reachable_step rooms sid req :
    reachable rooms -> well_formed req ->
    reachable (rooms_of (handle rooms sid req)).

(** ** Vocabulary of the statements *)

Definition piece_at (ps : Pieces) (c : Color) (i : nat) : option Piece :=
  nth_error (pieces_of ps c) i.

(** A piece stands on [cell] outside its home stretch. *)
Definition hit (cell : Z) (p : Piece) : Prop :=
  position p = cell /\ isInHomeStretch p = false.

(** A piece after capture. *)
Definition sent_home (p : Piece) : Piece := mkPiece (-1) (homeIndex p) false.

(** Slot [i] of colour [c] holds an opposing piece standing on [cell]
    outside its home stretch. *)
Definition capturable (ps : Pieces) (mover : Color) (cell : Z)
  (c : Color) (i : nat) : Prop :=
  c <> mover /\
  exists p, piece_at ps c i = Some p /\
            position p = cell /\ isInHomeStretch p = false.

Definition color_rank (c : Color) : nat :=
  match c with
  | red => 0
  | green => 1
  | yellow => 2
  | blue => 3
  end.

(** Colour-then-slot order. *)
Definition scanned_before (c' : Color) (i' : nat) (c : Color) (i : nat) : Prop :=
  (color_rank c' < color_rank c)%nat \/ (c' = c /\ (i' < i)%nat).

Definition first_capturable (ps : Pieces) (mover : Color) (cell : Z)
  (c : Color) (i : nat) : Prop :=
  capturable ps mover cell c i /\
  forall c' i', scanned_before c' i' c i -> ~ capturable ps mover cell c' i'.

Definition color_name (c : Color) : string :=
  match c with
  | red => "red"
  | green => "green"
  | yellow => "yellow"
  | blue => "blue"
  end.

(** The colours held by the players of a room, [undefined] included. *)
Definition used_colors (room : Room) : list (option Color) :=
  map color (obj_values (players room)).

(** The join rule in the words of the specification, "the
    lexicographically-first unused color": the least name, in dictionary
    order, among the palette colours no player holds. *)
Definition lexicographically_first_unused (used : list (option Color))
  : option Color :=
  let free := filter (fun c => negb (existsb (fun u => same_color u c) used))
                     colors in
  match free with
  | [] => None
  | c :: rest =>
      Some (fold_left
              (fun best x =>
                 if String.ltb (color_name x) (color_name best) then x else best)
              rest c)
  end.

Definition host_count (room : Room) : nat :=
  List.length (filter isHost (obj_values (players room))).

(** Invariants of a stored room. *)
Definition turn_in_range (room : Room) : Prop :=
  0 <= currentPlayer room < playerCount room.

Definition dice_recorded (room : Room) : Prop :=
  lastRoll room = Some (diceValue room) \/
  (lastRoll room = None /\ diceValue room = 1 /\
   forall c i p, piece_at (pieces room) c i = Some p -> position p = -1).

Definition members_counted (room : Room) : Prop :=
  Z.of_nat (List.length (players room)) <= playerCount room.

Definition room_ok (room : Room) : Prop :=
  dice_recorded room /\ members_counted room.

(** Sample runs: Alice creates room R1, Bob joins, Alice starts the game. *)
Definition lobby_alice : list (string * Request) :=
  [("A", CreateRoom "Alice" "R1")].

Definition lobby_alice_bob : list (string * Request) :=
  [("A", CreateRoom "Alice" "R1"); ("B", JoinRoom "R1" "Bob")].

Definition game_alice_bob : list (string * Request) :=
  [("A", CreateRoom "Alice" "R1"); ("B", JoinRoom "R1" "Bob");
   ("A", StartGame "R1")].

(** Alice rolls a 3 with every piece at home, so the turn passes to Bob,
    who then disconnects. *)
Definition bob_leaves_on_his_turn : list (string * Request) :=
  [("A", CreateRoom "Alice" "R1"); ("B", JoinRoom "R1" "Bob");
   ("A", StartGame "R1"); ("A", RollDice "R1" 3); ("B", Disconnect)].

(** Alice opens the game with a 6. *)
Definition alice_rolls_six : list (string * Request) :=
  [("A", CreateRoom "Alice" "R1"); ("B", JoinRoom "R1" "Bob");
   ("A", StartGame "R1"); ("A", RollDice "R1" 6)].

(** Bob leaves at once; Alice, alone, rolls a 6, brings a piece out and
    rolls a 3. *)
Definition alice_alone_on_track : list (string * Request) :=
  [("A", CreateRoom "Alice" "R1"); ("B", JoinRoom "R1" "Bob");
   ("A", StartGame "R1"); ("B", Disconnect); ("A", RollDice "R1" 6);
   ("A", MovePiece "R1" 0); ("A", RollDice "R1" 3)].

(** The room after an executed move: [ps] are the pieces after the move
    and the capture, [advance] whether the turn is passed on. *)
Definition after_move (room : Room) (ps : Pieces) (advance : bool) : Room :=
  if advance then
    set_canRollAgain
      (set_currentPlayer (set_pieces room ps)
         (Z.rem (currentPlayer room + 1) (playerCount room)))
      false
  else set_pieces room ps.

(** ** Vocabulary of the further properties *)

(** Where a piece can be: at home, on a main-track cell, or on a cell of
    its home stretch (entered at index 1, finished at index 6). *)
Definition piece_ok (p : Piece) : Prop :=
  (position p = -1 /\ isInHomeStretch p = false) \/
  (0 <= position p < BOARD_SIZE /\ isInHomeStretch p = false) \/
  (101 <= position p <= 106 /\ isInHomeStretch p = true).

(** Every colour has the four slots 0..3, each holding a piece that is
    somewhere a piece can be and that carries its slot as [homeIndex]. *)
Definition board_ok (ps : Pieces) : Prop :=
  forall c i,
    match piece_at ps c i with
    | Some p => (i < 4)%nat /\ piece_ok p /\ homeIndex p = Z.of_nat i
    | None => (4 <= i)%nat
    end.

(** Membership of a room: between one and four counted players, no more
    entries than counted, each socket once, each with a colour of its
    own, and at most one host. *)
Definition members_ok (room : Room) : Prop :=
  1 <= playerCount room <= 4 /\
  members_counted room /\
  NoDup (obj_keys (players room)) /\
  NoDup (used_colors room) /\
  ~ In None (used_colors room) /\
  (host_count room <= 1)%nat.

Definition room_sound (room : Room) : Prop :=
  board_ok (pieces room) /\ 1 <= diceValue room <= 6 /\ members_ok room.

Definition registry_ok (rooms : Rooms) : Prop :=
  NoDup (obj_keys rooms) /\ Forall room_sound (obj_values rooms).


(** The test of the disconnect loop: the room lists [sid] as a player. *)
Definition holds (sid : string) (entry : string * Room) : bool :=
  match obj_get (players (snd entry)) sid with
  | Some _ => true
  | None => false
  end.



(** How a room may differ after a request that did not create it: it
    keeps its code, and once started it stays started and lists no
    player it did not list before, each with unchanged data. *)
Definition evolves (room room' : Room) : Prop :=
  roomCode room' = roomCode room /\
  (gameStarted room = true ->
   gameStarted room' = true /\
   forall k p, obj_get (players room') k = Some p ->
               obj_get (players room) k = Some p).

(** * Properties *)

(** ** Colours *)

Lemma Color_eqb_eq a b : Color_eqb a b = true <-> a = b.
Proof. destruct a, b; simpl; split; intro H; congruence. Qed.

Lemma Color_eqb_refl a : Color_eqb a a = true.
Proof. now destruct a. Qed.

Lemma Color_eqb_neq a b : Color_eqb a b = false <-> a <> b.
Proof. destruct a, b; simpl; split; intro H; congruence. Qed.

(** ** Movement legality and execution *)

Module Rules.

(** C8: for a die from 1 to 6, [canMovePiece] accepts a piece at home
    (position -1) exactly when the die is 6, a piece in its home stretch
    exactly when its stretch index plus the die is at most 6, and every
    piece on the main track. *)
Theorem canMovePiece_cases (piece : Piece) (d : Z) (color : Color) :
  1 <= d <= 6 ->
  (position piece = -1 ->
     (canMovePiece piece d color = true <-> d = 6)) /\
  (position piece <> -1 -> isInHomeStretch piece = true ->
     (canMovePiece piece d color = true <-> (position piece - 100) + d <= 6)) /\
  (position piece <> -1 -> isInHomeStretch piece = false ->
     canMovePiece piece d color = true).
Proof.
  intros _. unfold canMovePiece. split; [|split].
  - intros Hpos. rewrite Hpos. simpl. apply Z.eqb_eq.
  - intros Hpos Hst. apply Z.eqb_neq in Hpos. rewrite Hpos, Hst.
    apply Z.leb_le.
  - intros Hpos Hst. apply Z.eqb_neq in Hpos. now rewrite Hpos, Hst.
Qed.

Lemma canMovePiece_cases_witness :
  1 <= 3 <= 6 /\
  (canMovePiece (mkPiece 103 2 true) 3 green = true
   <-> (position (mkPiece 103 2 true) - 100) + 3 <= 6) /\
  canMovePiece (mkPiece 104 2 true) 3 green <> true.
Proof.
  split; [lia|]. split.
  - apply (canMovePiece_cases (mkPiece 103 2 true) 3 green);
      [lia|simpl; lia|reflexivity].
  - intros Hcan.
    apply (canMovePiece_cases (mkPiece 104 2 true) 3 green) in Hcan;
      [simpl in Hcan; lia|lia|simpl; lia|reflexivity].
Defined.

(** An accepted move is carried out. *)
Lemma movePiece_accepted (piece : Piece) (d : Z) (color : Color) :
  canMovePiece piece d color = true ->
  moved (snd (movePiece piece d color)) = true.
Proof.
  unfold canMovePiece, movePiece.
  destruct (position piece =? -1) eqn:Hhome; simpl.
  - intros ->. reflexivity.
  - destruct (isInHomeStretch piece).
    + intros ->. reflexivity.
    + intros _.
      destruct (position piece <=? HOME_STRETCH_START color); simpl;
        [destruct (_ >? _); simpl; [destruct (_ <=? 6)|]|]; reflexivity.
Qed.

(** C9: whenever [canMovePiece] accepts, [movePiece] reports
    [moved: true]; this needs no bound on the die. *)
Theorem canMovePiece_then_moved (piece : Piece) (d : Z) (color : Color) :
  canMovePiece piece d color = true ->
  moved (snd (movePiece piece d color)) = true.
Proof. exact (movePiece_accepted piece d color). Qed.

Lemma canMovePiece_then_moved_witness :
  canMovePiece (mkPiece (-1) 0 false) 6 red = true /\
  moved (snd (movePiece (mkPiece (-1) 0 false) 6 red)) = true.
Proof.
  split; [reflexivity|].
  apply (canMovePiece_then_moved (mkPiece (-1) 0 false) 6 red). reflexivity.
Defined.

(** A rejected call leaves the piece as it was. *)
Lemma movePiece_not_moved (piece : Piece) (d : Z) (color : Color) :
  moved (snd (movePiece piece d color)) = false ->
  fst (movePiece piece d color) = piece.
Proof.
  unfold movePiece.
  destruct ((position piece =? -1) && (d =? 6)); simpl; [discriminate|].
  destruct (position piece =? -1); simpl; [reflexivity|].
  destruct (isInHomeStretch piece).
  - destruct (_ <=? 6); simpl; [discriminate|reflexivity].
  - destruct (position piece <=? HOME_STRETCH_START color); simpl;
      [destruct (_ >? _); simpl; [destruct (_ <=? 6)|]|]; discriminate.
Qed.

(** On the main track the new cell is compared with the boundary after
    the remainder is taken.  A crossing that does not pass cell 51 is
    caught and always lands within the stretch. *)
Lemma movePiece_enters_stretch (p h d : Z) (color : Color) :
  1 <= d <= 6 -> 0 <= p <= HOME_STRETCH_START color ->
  HOME_STRETCH_START color < p + d < BOARD_SIZE ->
  movePiece (mkPiece p h false) d color =
  (mkPiece (100 + (p + d - HOME_STRETCH_START color)) h true,
   mkMoveResult true None).
Proof.
  intros Hd Hp Hnew. unfold movePiece, BOARD_SIZE in *. simpl.
  replace (p =? -1) with false by (symmetry; apply Z.eqb_neq; lia). simpl.
  rewrite Z.rem_small by lia.
  replace (p <=? HOME_STRETCH_START color) with true
    by (symmetry; apply Z.leb_le; lia).
  replace (p + d >? HOME_STRETCH_START color) with true
    by (symmetry; apply Z.gtb_lt; lia).
  simpl.
  replace (p + d - HOME_STRETCH_START color <=? 6) with true
    by (symmetry; apply Z.leb_le; lia).
  reflexivity.
Qed.

(** Red's boundary is cell 51, the last before the wrap: the remainder is
    never above it, so a red piece never leaves the main track. *)
Lemma movePiece_red_stays_on_track (p h d : Z) :
  0 <= p < BOARD_SIZE -> 1 <= d <= 6 ->
  movePiece (mkPiece p h false) d red =
  (mkPiece (Z.rem (p + d) BOARD_SIZE) h false, mkMoveResult true None).
Proof.
  intros Hp Hd. unfold movePiece, BOARD_SIZE in *. simpl.
  replace (p =? -1) with false by (symmetry; apply Z.eqb_neq; lia). simpl.
  assert (Hrem : 0 <= Z.rem (p + d) 52 < 52) by (apply Z.rem_bound_pos; lia).
  replace (Z.rem (p + d) 52 >? 51) with false
    by (symmetry; rewrite Z.gtb_ltb; apply Z.ltb_ge; lia).
  rewrite andb_false_r. reflexivity.
Qed.

(** C2 (evaluation at the failing input): a red piece on cell 50 moved by
    3 passes red's boundary cell 51, is accepted by [canMovePiece], and is
    put on main-track cell 1 instead of stretch index 2. *)
Theorem movePiece_red_crossing :
  position (mkPiece 50 0 false) <= HOME_STRETCH_START red
    < position (mkPiece 50 0 false) + 3 /\
  canMovePiece (mkPiece 50 0 false) 3 red = true /\
  movePiece (mkPiece 50 0 false) 3 red =
    (mkPiece 1 0 false, mkMoveResult true None).
Proof. repeat split; simpl; lia. Qed.

End Rules.

(** ** Capture resolution *)

Module Capture.

Lemma includes_In (l : list Z) (x : Z) : includes l x = true <-> In x l.
Proof.
  unfold includes. rewrite existsb_exists. split.
  - intros [y [Hy Heq]]. apply Z.eqb_eq in Heq. now subst.
  - intros H. exists x. split; [assumption|apply Z.eqb_refl].
Qed.

Lemma nth_error_set_nth_eq {A} (l : list A) (n : nat) (x y : A) :
  nth_error l n = Some y -> nth_error (set_nth l n x) n = Some x.
Proof.
  revert n. induction l as [|h t IH]; intros [|n]; simpl; try discriminate.
  - reflexivity.
  - apply IH.
Qed.

Lemma nth_error_set_nth_ne {A} (l : list A) (n m : nat) (x : A) :
  m <> n -> nth_error (set_nth l n x) m = nth_error l m.
Proof.
  revert n m. induction l as [|h t IH]; intros [|n] [|m] Hne; simpl;
    try reflexivity; try congruence.
  apply IH. congruence.
Qed.

Lemma pieces_of_set_same ps c l : pieces_of (set_pieces_of ps c l) c = l.
Proof. now destruct c. Qed.

Lemma pieces_of_set_other ps c c' l :
  c' <> c -> pieces_of (set_pieces_of ps c l) c' = pieces_of ps c'.
Proof. destruct c, c'; simpl; congruence. Qed.

Lemma hit_test cell p :
  (position p =? cell) && negb (isInHomeStretch p) = true <-> hit cell p.
Proof.
  unfold hit. rewrite andb_true_iff, Z.eqb_eq, negb_true_iff. tauto.
Qed.

Lemma capture_scan_None l k cell :
  capture_scan l k cell = None ->
  forall i p, nth_error l i = Some p -> ~ hit cell p.
Proof.
  revert k. induction l as [|h t IH]; intros k Hscan i p Hnth.
  - destruct i; discriminate.
  - simpl in Hscan.
    destruct ((position h =? cell) && negb (isInHomeStretch h)) eqn:Htest;
      [discriminate|].
    destruct (capture_scan t (S k) cell) as [[j t']|] eqn:Hrest;
      [discriminate|].
    destruct i as [|i]; simpl in Hnth.
    + injection Hnth as <-. rewrite <- hit_test. congruence.
    + eapply IH; eassumption.
Qed.

Lemma capture_scan_Some l k cell j l' :
  capture_scan l k cell = Some (j, l') ->
  exists n p, j = (k + n)%nat /\ nth_error l n = Some p /\ hit cell p /\
              l' = set_nth l n (sent_home p) /\
              forall m q, (m < n)%nat -> nth_error l m = Some q -> ~ hit cell q.
Proof.
  revert k j l'. induction l as [|h t IH]; intros k j l' Hscan;
    simpl in Hscan; [discriminate|].
  destruct ((position h =? cell) && negb (isInHomeStretch h)) eqn:Htest.
  - injection Hscan as <- <-. exists 0%nat, h.
    repeat split; try (apply hit_test in Htest; apply Htest).
    + lia.
    + intros m q Hm. lia.
  - destruct (capture_scan t (S k) cell) as [[j0 t']|] eqn:Hrest;
      [|discriminate].
    injection Hscan as <- <-.
    destruct (IH _ _ _ Hrest) as (n & p & Hj & Hnth & Hhit & Ht' & Hfirst).
    exists (S n), p. repeat split; try apply Hhit.
    + lia.
    + exact Hnth.
    + simpl. now rewrite Ht'.
    + intros [|m] q Hm Hq; simpl in Hq.
      * injection Hq as <-. rewrite <- hit_test. congruence.
      * apply (Hfirst m q); [lia|assumption].
Qed.

(** The outer loop over any list of colours still to visit. *)
Lemma capture_colors_spec entries ps mover cell ps' r :
  capture_colors entries ps mover cell = (ps', r) ->
  match r with
  | None =>
      ps' = ps /\
      forall c, In c entries -> c <> mover ->
                forall i p, piece_at ps c i = Some p -> ~ hit cell p
  | Some (c, i) =>
      exists pre post p,
        entries = (pre ++ c :: post)%list /\ c <> mover /\
        (forall c', In c' pre -> c' <> mover ->
                    forall i' q, piece_at ps c' i' = Some q -> ~ hit cell q) /\
        piece_at ps c i = Some p /\ hit cell p /\
        (forall m q, (m < i)%nat -> piece_at ps c m = Some q -> ~ hit cell q) /\
        ps' = set_pieces_of ps c (set_nth (pieces_of ps c) i (sent_home p))
  end.
Proof.
  induction entries as [|c0 rest IH]; simpl; intros Hrun.
  - injection Hrun as <- <-. split; [reflexivity|]. intros c [].
  - destruct (Color_eqb c0 mover) eqn:Hown.
    + apply Color_eqb_eq in Hown. subst c0. specialize (IH Hrun).
      destruct r as [[c i]|].
      * destruct IH as (pre & post & p & -> & Hc & Hpre & Hrest).
        exists (mover :: pre), post, p. repeat split; try apply Hrest; auto.
        intros c' [<-|Hin] Hne; [congruence|]. now apply Hpre.
      * destruct IH as [-> Hall]. split; [reflexivity|].
        intros c [<-|Hin] Hne; [congruence|]. now apply Hall.
    + apply Color_eqb_neq in Hown.
      destruct (capture_scan (pieces_of ps c0) 0 cell) as [[j l]|] eqn:Hscan.
      * injection Hrun as <- <-.
        destruct (capture_scan_Some _ _ _ _ _ Hscan)
          as (n & p & Hj & Hnth & Hhit & Hl & Hfirst).
        simpl in Hj. subst j l. exists [], rest, p.
        repeat split; try apply Hhit; auto.
      * specialize (IH Hrun). destruct r as [[c i]|].
        -- destruct IH as (pre & post & p & -> & Hc & Hpre & Hrest).
           exists (c0 :: pre), post, p. repeat split; try apply Hrest; auto.
           intros c' [<-|Hin] Hne; [|now apply Hpre].
           intros i' q. apply (capture_scan_None _ _ _ Hscan).
        -- destruct IH as [-> Hall]. split; [reflexivity|].
           intros c [<-|Hin] Hne; [|now apply Hall].
           intros i' q. apply (capture_scan_None _ _ _ Hscan).
Qed.

Lemma piece_colors_all c : In c piece_colors.
Proof. destruct c; simpl; tauto. Qed.

Lemma piece_colors_prefix pre c post :
  piece_colors = (pre ++ c :: post)%list ->
  forall c', In c' pre <-> (color_rank c' < color_rank c)%nat.
Proof.
  unfold piece_colors.
  destruct pre as [|x1 [|x2 [|x3 [|x4 [|x5 pre]]]]]; simpl; intros H;
    try (destruct pre; discriminate);
    injection H as; subst; intros c'; destruct c'; simpl;
    intuition (try lia; try discriminate).
Qed.

(** What [checkCapture] returns and what it changes. *)
Lemma checkCapture_effect (ps : Pieces) (movedPiece : Piece) (mover : Color)
  (cell : Z) :
  (In cell SAFE_POSITIONS ->
   checkCapture ps movedPiece mover cell = (ps, None)) /\
  (forall ps' r,
     checkCapture ps movedPiece mover cell = (ps', r) ->
     match r with
     | None =>
         ps' = ps /\
         (In cell SAFE_POSITIONS \/
          forall c i, ~ capturable ps mover cell c i)
     | Some (c, i) =>
         ~ In cell SAFE_POSITIONS /\
         first_capturable ps mover cell c i /\
         (exists p, piece_at ps c i = Some p /\
                    piece_at ps' c i = Some (sent_home p)) /\
         (forall c' i', (c', i') <> (c, i) ->
                        piece_at ps' c' i' = piece_at ps c' i')
     end).
Proof.
  unfold checkCapture. split.
  - intros Hsafe. apply includes_In in Hsafe. now rewrite Hsafe.
  - intros ps' r.
    destruct (includes SAFE_POSITIONS cell) eqn:Hsafe.
    + intros Hrun. injection Hrun as <- <-. split; [reflexivity|].
      left. now apply includes_In.
    + assert (Hunsafe : ~ In cell SAFE_POSITIONS)
        by (rewrite <- includes_In; congruence).
      intros Hrun. apply capture_colors_spec in Hrun.
      destruct r as [[c i]|].
      * destruct Hrun as (pre & post & p & Hsplit & Hc & Hpre & Hat & Hhit
                          & Hfirst & ->).
        split; [exact Hunsafe|]. split; [|split].
        -- split.
           ++ split; [exact Hc|]. exists p. split; [exact Hat|exact Hhit].
           ++ intros c' i' Hbefore (Hc' & q & Hq & Hhq).
              destruct Hbefore as [Hrank|[-> Hlt]].
              ** apply (Hpre c' (proj2 (piece_colors_prefix _ _ _ Hsplit c')
                                       Hrank) Hc' i' q Hq Hhq).
              ** apply (Hfirst i' q Hlt Hq Hhq).
        -- exists p. split; [exact Hat|].
           unfold piece_at in *. rewrite pieces_of_set_same.
           now apply nth_error_set_nth_eq with (y := p).
        -- intros c' i' Hne. unfold piece_at.
           destruct (Color_eqb c' c) eqn:Hcc.
           ++ apply Color_eqb_eq in Hcc. subst c'.
              rewrite pieces_of_set_same. apply nth_error_set_nth_ne.
              congruence.
           ++ apply Color_eqb_neq in Hcc. now rewrite pieces_of_set_other.
      * destruct Hrun as [-> Hall]. split; [reflexivity|]. right.
        intros c i (Hc & q & Hq & Hhq).
        apply (Hall c (piece_colors_all c) Hc i q Hq Hhq).
Qed.

(** C7: on a safe cell nothing is captured.  Otherwise the result names
    the first opposing piece, in colour-then-slot order, that stands on
    the landed cell outside its home stretch; that piece alone is changed,
    to position -1 with its home-stretch flag false.  When the result is
    [null] no piece is changed. *)
Theorem checkCapture_spec (ps : Pieces) (movedPiece : Piece) (mover : Color)
  (cell : Z) :
  (In cell SAFE_POSITIONS ->
   checkCapture ps movedPiece mover cell = (ps, None)) /\
  (forall ps' r,
     checkCapture ps movedPiece mover cell = (ps', r) ->
     match r with
     | None =>
         ps' = ps /\
         (In cell SAFE_POSITIONS \/
          forall c i, ~ capturable ps mover cell c i)
     | Some (c, i) =>
         ~ In cell SAFE_POSITIONS /\
         first_capturable ps mover cell c i /\
         (exists p, piece_at ps c i = Some p /\
                    piece_at ps' c i = Some (sent_home p)) /\
         (forall c' i', (c', i') <> (c, i) ->
                        piece_at ps' c' i' = piece_at ps c' i')
     end).
Proof. exact (checkCapture_effect ps movedPiece mover cell). Qed.

(** Green lands on cell 5, where red's slot 1 and blue's slot 0 both stand. *)
Lemma checkCapture_spec_witness :
  first_capturable
    (mkPieces [mkPiece (-1) 0 false; mkPiece 5 1 false] []
              [] [mkPiece 5 0 false])
    green 5 red 1.
Proof.
  exact (proj1 (proj2
    (proj2 (checkCapture_spec
              (mkPieces [mkPiece (-1) 0 false; mkPiece 5 1 false] []
                        [] [mkPiece 5 0 false])
              (mkPiece 5 0 false) green 5)
           _ (Some (red, 1%nat)) eq_refl))).
Defined.

End Capture.

(** ** Objects *)

Section ObjectFacts.
Context {V : Type}.
Implicit Types (o : Obj V) (k : string) (v : V).

Lemma obj_get_set_same o k v : obj_get (obj_set o k v) k = Some v.
Proof.
  induction o as [|[k' v'] t IH]; simpl.
  - now rewrite String.eqb_refl.
  - destruct (String.eqb k' k) eqn:Hk; simpl.
    + now rewrite String.eqb_refl.
    + now rewrite Hk.
Qed.

Lemma obj_get_set_other o k k' v :
  k' <> k -> obj_get (obj_set o k v) k' = obj_get o k'.
Proof.
  intros Hne. induction o as [|[k0 v0] t IH]; simpl.
  - apply String.eqb_neq in Hne. rewrite String.eqb_sym. now rewrite Hne.
  - destruct (String.eqb k0 k) eqn:Hk; simpl.
    + apply String.eqb_eq in Hk. subst k0.
      replace (String.eqb k k') with false
        by (symmetry; apply String.eqb_neq; congruence).
      reflexivity.
    + now rewrite IH.
Qed.

Lemma obj_get_delete_same o k : obj_get (obj_delete o k) k = None.
Proof.
  induction o as [|[k' v'] t IH]; simpl; [reflexivity|].
  destruct (String.eqb k' k) eqn:Hk; simpl; [assumption|].
  now rewrite Hk.
Qed.

Lemma obj_get_In o k v : obj_get o k = Some v -> In v (obj_values o).
Proof.
  induction o as [|[k' v'] t IH]; simpl; [discriminate|].
  destruct (String.eqb k' k).
  - intros H. injection H as ->. now left.
  - intros H. right. now apply IH.
Qed.

Lemma obj_key_get o k : In k (obj_keys o) -> exists v, obj_get o k = Some v.
Proof.
  induction o as [|[k' v'] t IH]; simpl; [intros []|].
  destruct (String.eqb k' k) eqn:Hk.
  - intros _. now exists v'.
  - intros [->|Hin]; [|now apply IH].
    now rewrite String.eqb_refl in Hk.
Qed.

Lemma obj_set_length o k v :
  (List.length (obj_set o k v) <= S (List.length o))%nat.
Proof.
  induction o as [|[k' v'] t IH]; simpl; [lia|].
  destruct (String.eqb k' k); simpl; lia.
Qed.

Lemma obj_delete_length o k v :
  obj_get o k = Some v ->
  (S (List.length (obj_delete o k)) <= List.length o)%nat.
Proof.
  assert (Hle : forall o', (List.length (obj_delete o' k) <= List.length o')%nat).
  { induction o' as [|[k' v'] t IH]; simpl; [lia|].
    destruct (String.eqb k' k); simpl; lia. }
  induction o as [|[k' v'] t IH]; simpl; [discriminate|].
  destruct (String.eqb k' k); simpl.
  - intros _. specialize (Hle t). lia.
  - intros H. specialize (IH H). lia.
Qed.

Lemma Forall_obj_set (P : V -> Prop) o k v :
  Forall P (obj_values o) -> P v -> Forall P (obj_values (obj_set o k v)).
Proof.
  intros Ho Hv. induction o as [|[k' v'] t IH]; simpl.
  - now constructor.
  - inversion Ho as [|? ? Hv' Ht]; subst.
    destruct (String.eqb k' k); simpl; constructor; auto.
Qed.

Lemma Forall_obj_delete (P : V -> Prop) o k :
  Forall P (obj_values o) -> Forall P (obj_values (obj_delete o k)).
Proof.
  intros Ho. induction o as [|[k' v'] t IH]; simpl; [constructor|].
  inversion Ho as [|? ? Hv' Ht]; subst.
  destruct (String.eqb k' k); simpl; [|constructor]; auto.
Qed.

Lemma Forall_obj_get (P : V -> Prop) o k v :
  Forall P (obj_values o) -> obj_get o k = Some v -> P v.
Proof.
  intros Ho Hget. rewrite Forall_forall in Ho. apply Ho.
  eapply obj_get_In; eassumption.
Qed.
End ObjectFacts.

(** ** Joining, and requests for rooms that are not in play *)

Module Lobby.

(** C10: a roll-dice or move-piece request whose room code is unknown, or
    whose room has not started, returns with the registry unchanged and
    with no event emitted. *)
Theorem roll_and_move_ignored (rooms : Rooms) (sid roomCode : string)
  (d pieceIndex : Z) :
  (obj_get rooms roomCode = None \/
   exists room, obj_get rooms roomCode = Some room /\
                gameStarted room = false) ->
  roll_dice rooms sid roomCode d = Returned rooms [] /\
  move_piece rooms sid roomCode pieceIndex = Returned rooms [].
Proof.
  unfold roll_dice, move_piece.
  intros [Hnone|(room & Hroom & Hidle)].
  - now rewrite Hnone.
  - now rewrite Hroom, Hidle.
Qed.

Lemma roll_and_move_ignored_witness :
  roll_dice (run [] lobby_alice_bob) "B" "R1" 4
    = Returned (run [] lobby_alice_bob) [] /\
  move_piece (run [] lobby_alice_bob) "B" "R1" 0
    = Returned (run [] lobby_alice_bob) [].
Proof.
  apply (roll_and_move_ignored (run [] lobby_alice_bob) "B" "R1" 4 0).
  right. eexists. split; reflexivity.
Defined.

Lemma used_test (used : list (option Color)) (c : Color) :
  existsb (fun u => same_color u c) used = true <-> In (Some c) used.
Proof.
  rewrite existsb_exists. split.
  - intros [[u|] [Hin Hsame]]; simpl in Hsame; [|discriminate].
    apply Color_eqb_eq in Hsame. now subst.
  - intros Hin. exists (Some c). split; [assumption|].
    simpl. apply Color_eqb_refl.
Qed.

(** [colors.find] returns the first palette colour that passes the test. *)
Lemma find_colors (f : Color -> bool) :
  match find f colors with
  | Some c => f c = true /\
              forall c', (color_rank c' < color_rank c)%nat -> f c' = false
  | None => forall c, f c = false
  end.
Proof.
  unfold colors. simpl.
  destruct (f red) eqn:Hr; [split; [assumption|intros [] Hlt; simpl in Hlt; lia]|].
  destruct (f green) eqn:Hg;
    [split; [assumption|intros [] Hlt; simpl in Hlt; (assumption || lia)]|].
  destruct (f yellow) eqn:Hy;
    [split; [assumption|intros [] Hlt; simpl in Hlt; (assumption || lia)]|].
  destruct (f blue) eqn:Hb;
    [split; [assumption|intros [] Hlt; simpl in Hlt; (assumption || lia)]|].
  intros []; assumption.
Qed.

(** Four colours in use need four players. *)
Lemma all_colors_used (used : list (option Color)) :
  (forall c, In (Some c) used) -> (4 <= List.length used)%nat.
Proof.
  intros Hall.
  change 4%nat with (List.length [Some red; Some green; Some yellow; Some blue]).
  apply NoDup_incl_length.
  - repeat constructor; simpl; intuition discriminate.
  - intros x [<-|[<-|[<-|[<-|[]]]]]; apply Hall.
Qed.

(** C6 (as amended): join-room fails with "Room not found" when the code
    names no room, otherwise with "Room is full" when [playerCount] is at
    least 4, otherwise with "Game already started" when play has begun.
    Otherwise the player is added, not as host, with the first colour in
    palette order (red, green, yellow, blue) that no player of the room
    holds; with fewer than four players such a colour exists. *)
Theorem join_room_spec (rooms : Rooms) (sid roomCode playerName : string) :
  (obj_get rooms roomCode = None ->
   join_room rooms sid roomCode playerName
   = Returned rooms [ToSocket sid (room_error "Room not found")]) /\
  (forall room,
     obj_get rooms roomCode = Some room ->
     (4 <= playerCount room ->
      join_room rooms sid roomCode playerName
      = Returned rooms [ToSocket sid (room_error "Room is full")]) /\
     (playerCount room < 4 -> gameStarted room = true ->
      join_room rooms sid roomCode playerName
      = Returned rooms [ToSocket sid (room_error "Game already started")]) /\
     (playerCount room < 4 -> gameStarted room = false ->
      exists player room',
        join_room rooms sid roomCode playerName
        = Returned (obj_set rooms roomCode room')
                   [ToSocket sid joined_room;
                    ToRoom roomCode (player_joined player)] /\
        obj_get (players room') sid = Some player /\
        name player = playerName /\ isHost player = false /\
        playerCount room' = playerCount room + 1 /\
        match color player with
        | Some c =>
            ~ In (Some c) (used_colors room) /\
            forall c', (color_rank c' < color_rank c)%nat ->
                       In (Some c') (used_colors room)
        | None => forall c, In (Some c) (used_colors room)
        end /\
        ((List.length (players room) < 4)%nat -> color player <> None))).
Proof.
  unfold join_room. split.
  - now intros ->.
  - intros room ->. split; [|split].
    + intros Hfull.
      replace (playerCount room >=? 4) with true
        by (symmetry; apply Z.geb_le; lia).
      reflexivity.
    + intros Hroom ->.
      replace (playerCount room >=? 4) with false
        by (symmetry; rewrite Z.geb_leb; apply Z.leb_gt; lia).
      reflexivity.
    + intros Hroom ->.
      replace (playerCount room >=? 4) with false
        by (symmetry; rewrite Z.geb_leb; apply Z.leb_gt; lia).
      fold (used_colors room).
      set (free := fun color : Color =>
             negb (existsb (fun u => same_color u color) (used_colors room))).
      pose proof (find_colors free) as Hfind.
      assert (Hfree : forall c, free c = false <-> In (Some c) (used_colors room)).
      { intros c. unfold free. rewrite negb_false_iff. apply used_test. }
      assert (Hchoice :
        match find free colors with
        | Some c =>
            ~ In (Some c) (used_colors room) /\
            forall c', (color_rank c' < color_rank c)%nat ->
                       In (Some c') (used_colors room)
        | None => forall c, In (Some c) (used_colors room)
        end).
      { destruct (find free colors) as [c|].
        - destruct Hfind as [Hc Hbefore]. split.
          + rewrite <- Hfree. congruence.
          + intros c' Hlt. apply Hfree. now apply Hbefore.
        - intros c. apply Hfree. apply Hfind. }
      exists (mkPlayer playerName (find free colors) false).
      eexists. split; [reflexivity|].
      cbn [players set_players set_playerCount playerCount name isHost color].
      rewrite obj_get_set_same.
      repeat split; try exact Hchoice.
      intros Hfew Hnone. rewrite Hnone in Hchoice.
      apply all_colors_used in Hchoice.
      unfold used_colors, obj_values in Hchoice.
      rewrite !length_map in Hchoice. lia.
Qed.

Lemma join_room_spec_witness :
  exists player room',
    join_room (run [] lobby_alice) "B" "R1" "Bob"
    = Returned (obj_set (run [] lobby_alice) "R1" room')
               [ToSocket "B" joined_room;
                ToRoom "R1" (player_joined player)] /\
    color player <> None.
Proof.
  destruct (proj2 (join_room_spec (run [] lobby_alice) "B" "R1" "Bob")
                  _ eq_refl) as (_ & _ & Hjoin).
  destruct (Hjoin ltac:(simpl; lia) eq_refl)
    as (player & room' & Hrun & _ & _ & _ & _ & _ & Hcolor).
  exists player, room'. split; [exact Hrun|].
  apply Hcolor. simpl. lia.
Defined.

(** C6 (counterexample): Alice created the room and holds red.  Bob joins
    and is given green, the next palette colour, while the least unused
    colour name in dictionary order is blue. *)
Lemma join_room_not_lexicographic :
  exists room player,
    obj_get (rooms_of (join_room (run [] lobby_alice) "B" "R1" "Bob")) "R1"
      = Some room /\
    obj_get (players room) "B" = Some player /\
    color player = Some green /\
    (exists before,
       obj_get (run [] lobby_alice) "R1" = Some before /\
       lexicographically_first_unused (used_colors before) = Some blue).
Proof.
  eexists. eexists. split; [reflexivity|]. split; [reflexivity|].
  split; [reflexivity|]. eexists. split; reflexivity.
Qed.

End Lobby.

(** ** Runs *)

Lemma run_reachable (rooms : Rooms) (trace : list (string * Request)) :
  reachable rooms ->
  Forall (fun step => well_formed (snd step)) trace ->
  reachable (run rooms trace).
Proof.
  revert rooms. induction trace as [|[sid req] rest IH]; intros rooms Hr Hwf.
  - exact Hr.
  - inversion Hwf as [|? ? Hreq Hrest]; subst. simpl.
    apply IH; [|exact Hrest]. now apply reachable_step.
Qed.

(** ** Leaving a room *)

Module Departure.

(** The player is deleted before the handler asks whether they were the
    host, so the answer is always no and no flag is ever changed. *)
Lemma leave_room_effect (rooms : Rooms) (sid roomCode : string) (room : Room) :
  playerCount room - 1 <> 0 ->
  leave_room rooms sid roomCode room =
  (obj_set rooms roomCode
     (set_playerCount (set_players room (obj_delete (players room) sid))
                      (playerCount room - 1)),
   [ToRoom roomCode (player_left sid)]).
Proof.
  intros Hleft. unfold leave_room.
  cbn [players set_players set_playerCount playerCount].
  apply Z.eqb_neq in Hleft. rewrite Hleft.
  unfold isHost_of. now rewrite obj_get_delete_same.
Qed.

(** C1 (evaluation at the failing input): Alice, host of a room she shares
    with Bob, disconnects.  Before, the room has exactly one host; after,
    Bob is the only player and is not host. *)
Theorem disconnect_host_leaves_no_host :
  reachable (run [] lobby_alice_bob) /\
  (exists room,
     obj_get (run [] lobby_alice_bob) "R1" = Some room /\
     isHost_of (players room) "A" = true /\ host_count room = 1%nat) /\
  (exists room,
     obj_get (rooms_of (disconnect (run [] lobby_alice_bob) "A")) "R1"
       = Some room /\
     players room = [("B", mkPlayer "Bob" (Some green) false)] /\
     host_count room = 0%nat).
Proof.
  split; [|split].
  - apply run_reachable; [constructor|]. repeat constructor.
  - eexists. split; [cbv; reflexivity|]. split; reflexivity.
  - eexists. split; [cbv; reflexivity|]. split; reflexivity.
Qed.

(** C3 (evaluation at the failing input): after Alice's roll of 3 the turn
    index is 1; Bob disconnects and the index stays 1 while [playerCount]
    drops to 1.  Nobody holds the turn: Alice's next roll is refused. *)
Theorem disconnect_leaves_turn_out_of_range :
  reachable (run [] bob_leaves_on_his_turn) /\
  exists room,
    obj_get (run [] bob_leaves_on_his_turn) "R1" = Some room /\
    obj_keys (players room) = ["A"] /\
    currentPlayer room = 1 /\ playerCount room = 1 /\
    ~ turn_in_range room /\
    roll_dice (run [] bob_leaves_on_his_turn) "A" "R1" 6
    = Returned (run [] bob_leaves_on_his_turn)
               [ToSocket "A" (game_error "Not your turn")].
Proof.
  split.
  - apply run_reachable; [constructor|].
    repeat constructor; simpl; lia.
  - eexists. split; [cbv; reflexivity|].
    do 3 (split; [reflexivity|]). split.
    + intros [_ Hlt]. cbv in Hlt. discriminate.
    + vm_compute. reflexivity.
Qed.

End Departure.

(** ** The move-piece handler *)

Module Moves.

(** Every way a move-piece request can end. *)
Lemma move_piece_cases (rooms : Rooms) (sid roomCode : string) (pieceIndex : Z) :
  move_piece rooms sid roomCode pieceIndex = Returned rooms [] \/
  move_piece rooms sid roomCode pieceIndex
  = Returned rooms [ToSocket sid (game_error "Invalid move")] \/
  (move_piece rooms sid roomCode pieceIndex = Threw rooms [] /\
   exists room player,
     obj_get rooms roomCode = Some room /\
     obj_get (players room) sid = Some player /\
     match color player with
     | Some c => js_index (pieces_of (pieces room) c) pieceIndex = None
     | None => True
     end) \/
  exists room player c piece piece1 ps2 cap,
    obj_get rooms roomCode = Some room /\
    gameStarted room = true /\
    not_current sid room = false /\
    obj_get (players room) sid = Some player /\
    color player = Some c /\
    js_index (pieces_of (pieces room) c) pieceIndex = Some piece /\
    canMovePiece piece (diceValue room) c = true /\
    fst (movePiece piece (diceValue room) c) = piece1 /\
    (let ps1 :=
       set_pieces_of (pieces room) c
         (set_nth (pieces_of (pieces room) c) (Z.to_nat pieceIndex) piece1) in
     if negb (position piece1 =? -1) && negb (isInHomeStretch piece1)
     then checkCapture ps1 piece1 c (position piece1)
     else (ps1, None)) = (ps2, cap) /\
    move_piece rooms sid roomCode pieceIndex
    = Returned
        (obj_set rooms roomCode
           (after_move room ps2
              (negb (lastRoll_is_6 room || is_captured cap) || hasWon ps2 c)))
        (ToRoom roomCode
           (piece_moved c pieceIndex (position piece) (position piece1) cap
              (hasWon ps2 c) (lastRoll_is_6 room || is_captured cap))
         :: if hasWon ps2 c
            then [ToRoom roomCode (game_won c (name player))]
            else []).
Proof.
  unfold move_piece.
  destruct (obj_get rooms roomCode) as [room|] eqn:Hroom; [|now left].
  destruct (gameStarted room) eqn:Hstarted; simpl; [|now left].
  destruct (not_current sid room) eqn:Hturn; [now left|].
  destruct (obj_get (players room) sid) as [player|] eqn:Hplayer.
  2:{ exfalso. unfold not_current in Hturn.
      destruct (js_index (obj_keys (players room)) (currentPlayer room))
        as [id|] eqn:Hid; [|discriminate].
      apply negb_false_iff, String.eqb_eq in Hturn. subst id.
      unfold js_index in Hid. destruct (currentPlayer room <? 0); [discriminate|].
      apply nth_error_In, obj_key_get in Hid. destruct Hid as [v Hv].
      congruence. }
  destruct (color player) as [c|] eqn:Hcolor.
  2:{ right; right; left. split; [reflexivity|].
      exists room, player. now rewrite Hcolor. }
  destruct (js_index (pieces_of (pieces room) c) pieceIndex) as [piece|] eqn:Hpiece.
  2:{ right; right; left. split; [reflexivity|].
      exists room, player. now rewrite Hcolor. }
  destruct (canMovePiece piece (diceValue room) c) eqn:Hcan; simpl;
    [|right; now left].
  pose proof (Rules.movePiece_accepted _ _ _ Hcan) as Hmoved.
  destruct (movePiece piece (diceValue room) c) as [piece1 moveResult] eqn:Hmove.
  simpl in Hmoved. rewrite Hmoved. simpl negb. cbv iota.
  cbn [pieces set_pieces].
  destruct (if negb (position piece1 =? -1) && negb (isInHomeStretch piece1)
            then _ else _) as [ps2 cap] eqn:Hcap.
  right; right; right.
  exists room, player, c, piece, piece1, ps2, cap.
  repeat (split; [first [reflexivity | assumption
                         | rewrite Hmove; reflexivity]|]).
  reflexivity.
Qed.

(** A move is refused only as "Invalid move", told to the requester
    alone, and then the registry is as it was. *)
Lemma move_piece_refused (rooms rooms' : Rooms) (sid roomCode : string)
  (pieceIndex : Z) (out : list Emit) (to msg : string) :
  move_piece rooms sid roomCode pieceIndex = Returned rooms' out ->
  In (ToSocket to (game_error msg)) out ->
  rooms' = rooms /\ out = [ToSocket sid (game_error "Invalid move")].
Proof.
  intros Hrun Hin.
  destruct (move_piece_cases rooms sid roomCode pieceIndex)
    as [H|[H|[[H _]|H]]].
  - rewrite H in Hrun. injection Hrun as <- <-. destruct Hin.
  - rewrite H in Hrun. injection Hrun as <- <-. now split.
  - rewrite H in Hrun. discriminate.
  - destruct H as (room & player & c & piece & piece1 & ps2 & cap & H).
    destruct H as (_ & _ & _ & _ & _ & _ & _ & _ & _ & H).
    rewrite H in Hrun. injection Hrun as <- <-.
    destruct Hin as [Hin|Hin]; [discriminate|].
    destruct (hasWon ps2 c); simpl in Hin; [destruct Hin as [Hin|[]]|destruct Hin].
    discriminate.
Qed.

(** C4 (evaluation at the failing input): in the started game of Alice
    and Bob, Alice, whose turn it is, asks to move slot 4.  The handler
    reads [position] of [undefined] and throws; slot -1 does the same. *)
Theorem move_piece_bad_slot_throws :
  reachable (run [] game_alice_bob) /\
  move_piece (run [] game_alice_bob) "A" "R1" 4
  = Threw (run [] game_alice_bob) [] /\
  move_piece (run [] game_alice_bob) "A" "R1" (-1)
  = Threw (run [] game_alice_bob) [].
Proof.
  split; [|split].
  - apply run_reachable; [constructor|]. repeat constructor.
  - vm_compute. reflexivity.
  - vm_compute. reflexivity.
Qed.

End Moves.

(** ** Invariants of reachable registries *)

Module Invariants.

Lemma js_index_Some {A} (l : list A) (i : Z) (x : A) :
  js_index l i = Some x ->
  0 <= i /\ nth_error l (Z.to_nat i) = Some x /\ i < Z.of_nat (List.length l).
Proof.
  unfold js_index. destruct (i <? 0) eqn:Hneg; [discriminate|].
  apply Z.ltb_ge in Hneg. intros Hnth. repeat split; try assumption.
  assert (Hlt : (Z.to_nat i < List.length l)%nat)
    by (apply nth_error_Some; congruence).
  lia.
Qed.

Lemma created_room_ok (sid : string) (p : Player) (code : string) :
  room_ok (createGameState sid p code).
Proof.
  split.
  - right. repeat split.
    intros c i q. unfold piece_at.
    destruct c; simpl; destruct i as [|[|[|[|i]]]]; simpl; intros Hq;
      try (injection Hq as <-; reflexivity); destruct i; discriminate.
  - unfold members_counted. simpl. lia.
Qed.

(** A piece cannot be moved before the first roll: every piece is at home
    and the die field holds its initial 1. *)
Lemma unrolled_room_cannot_move (room : Room) (c : Color) (pieceIndex : Z)
  (piece : Piece) :
  lastRoll room = None -> dice_recorded room ->
  js_index (pieces_of (pieces room) c) pieceIndex = Some piece ->
  canMovePiece piece (diceValue room) c = false.
Proof.
  intros Hnone [Hsome|(_ & Hone & Hhome)] Hpiece; [congruence|].
  apply js_index_Some in Hpiece. destruct Hpiece as (_ & Hnth & _).
  apply Hhome in Hnth. unfold canMovePiece. now rewrite Hnth, Hone.
Qed.

Lemma leave_room_ok (rooms : Rooms) (sid roomCode : string) (room : Room)
  (p : Player) :
  Forall room_ok (obj_values rooms) -> room_ok room ->
  obj_get (players room) sid = Some p ->
  Forall room_ok (obj_values (fst (leave_room rooms sid roomCode room))).
Proof.
  intros Hrooms [Hdice Hcount] Hp.
  destruct (Z.eq_dec (playerCount room - 1) 0) as [Hzero|Hleft].
  - unfold leave_room. cbn [players set_players set_playerCount playerCount].
    rewrite Hzero. simpl. now apply Forall_obj_delete.
  - rewrite Departure.leave_room_effect by assumption. simpl.
    apply Forall_obj_set; [assumption|]. split; [exact Hdice|].
    unfold members_counted in *.
    cbn [players set_players set_playerCount playerCount].
    pose proof (obj_delete_length _ _ _ Hp). lia.
Qed.

Lemma disconnect_loop_ok (entries : list (string * Room)) (rooms : Rooms)
  (sid : string) :
  Forall room_ok (obj_values entries) -> Forall room_ok (obj_values rooms) ->
  Forall room_ok (obj_values (fst (disconnect_loop entries rooms sid))).
Proof.
  induction entries as [|[code room] rest IH]; simpl; intros Hentries Hrooms.
  - assumption.
  - inversion Hentries as [|? ? Hroom Hrest]; subst.
    destruct (obj_get (players room) sid) as [p|] eqn:Hp.
    + eapply leave_room_ok; eassumption.
    + now apply IH.
Qed.

Lemma handle_rooms_ok (rooms : Rooms) (sid : string) (req : Request) :
  Forall room_ok (obj_values rooms) ->
  Forall room_ok (obj_values (rooms_of (handle rooms sid req))).
Proof.
  intros Hrooms.
  destruct req as [playerName code|code playerName|code|code d|code idx|];
    simpl.
  - apply Forall_obj_set; [assumption|apply created_room_ok].
  - unfold join_room.
    destruct (obj_get rooms code) as [room|] eqn:Hroom; [|assumption].
    destruct (playerCount room >=? 4); [assumption|].
    destruct (gameStarted room); [assumption|]. simpl.
    destruct (Forall_obj_get _ _ _ _ Hrooms Hroom) as [Hdice Hcount].
    apply Forall_obj_set; [assumption|]. split; [exact Hdice|].
    unfold members_counted in *.
    cbn [players set_players set_playerCount playerCount].
    match goal with |- context [obj_set ?o ?k ?v] =>
      pose proof (obj_set_length o k v) end.
    lia.
  - unfold start_game.
    destruct (obj_get rooms code) as [room|] eqn:Hroom; [|assumption].
    destruct (negb (isHost_of (players room) sid)); [assumption|].
    destruct (playerCount room <? 2); [assumption|]. simpl.
    apply Forall_obj_set; [assumption|].
    exact (Forall_obj_get _ _ _ _ Hrooms Hroom).
  - unfold roll_dice.
    destruct (obj_get rooms code) as [room|] eqn:Hroom; [|assumption].
    destruct (negb (gameStarted room)); [assumption|].
    destruct (not_current sid room); [assumption|].
    destruct (Forall_obj_get _ _ _ _ Hrooms Hroom) as [Hdice Hcount].
    cbn [players set_lastRoll set_diceValue pieces].
    destruct (obj_get (players room) sid) as [player|];
      [destruct (color player) as [c|];
       [destruct ((List.length _ =? 0)%nat && negb (d =? 6))|]|];
      simpl; (apply Forall_obj_set; [assumption|]);
      (split; [left; reflexivity|exact Hcount]).
  - destruct (Moves.move_piece_cases rooms sid code idx)
      as [H|[H|[[H _]|H]]]; try (rewrite H; assumption).
    destruct H as (room & player & c & piece & piece1 & ps2 & cap & H).
    destruct H as (Hroom & _ & _ & _ & _ & Hpiece & Hcan & _ & _ & H).
    rewrite H. simpl.
    destruct (Forall_obj_get _ _ _ _ Hrooms Hroom) as [Hdice Hcount].
    apply Forall_obj_set; [assumption|].
    assert (Hrolled : lastRoll room = Some (diceValue room)).
    { destruct (lastRoll room) as [v|] eqn:Hlast.
      - destruct Hdice as [Hsome|[Hnone _]]; congruence.
      - pose proof (unrolled_room_cannot_move _ _ _ _ Hlast Hdice Hpiece).
        congruence. }
    unfold after_move.
    destruct (negb _ || _); (split; [left; exact Hrolled|exact Hcount]).
  - unfold disconnect.
    pose proof (disconnect_loop_ok rooms rooms sid Hrooms Hrooms) as Hloop.
    destruct (disconnect_loop rooms rooms sid) as [rooms' out]. exact Hloop.
Qed.

Lemma reachable_rooms_ok (rooms : Rooms) :
  reachable rooms -> Forall room_ok (obj_values rooms).
Proof.
  induction 1 as [|rooms sid req _ IH _].
  - constructor.
  - now apply handle_rooms_ok.
Qed.

End Invariants.

(** ** Turn continuation *)

Module Turn.

Lemma pieces_after_move room ps advance :
  pieces (after_move room ps advance) = ps.
Proof. now destruct advance. Qed.

Lemma currentPlayer_after_move room ps advance :
  currentPlayer (after_move room ps advance)
  = if advance then Z.rem (currentPlayer room + 1) (playerCount room)
    else currentPlayer room.
Proof. now destruct advance. Qed.

(** Whoever passes the turn check is indexed by the turn counter. *)
Lemma current_player_in_range (room : Room) (sid : string) :
  members_counted room -> not_current sid room = false ->
  0 <= currentPlayer room < playerCount room.
Proof.
  unfold members_counted, not_current. intros Hcount Hturn.
  destruct (js_index (obj_keys (players room)) (currentPlayer room))
    as [id|] eqn:Hid; [|discriminate].
  apply Invariants.js_index_Some in Hid. destruct Hid as (Hpos & _ & Hlt).
  unfold obj_keys in Hlt. rewrite length_map in Hlt. lia.
Qed.

(** The next index differs from the current one when two or more play. *)
Lemma next_player_differs (cur count : Z) :
  0 <= cur < count -> 2 <= count -> (cur + 1) mod count <> cur.
Proof.
  intros Hcur Hcount.
  destruct (Z.eq_dec (cur + 1) count) as [Hlast|Hmid].
  - rewrite Hlast, Z.mod_same by lia. lia.
  - rewrite Z.mod_small by lia. lia.
Qed.

(** What the capture check of an executed move reports: a captured piece
    is an opposing piece that stood on the landed cell and is now at
    home; without a capture the other colours are untouched. *)
Lemma capture_report (ps ps2 : Pieces) (c : Color) (n : nat)
  (piece1 : Piece) (cap : option (Color * nat)) :
  (let ps1 := set_pieces_of ps c (set_nth (pieces_of ps c) n piece1) in
   if negb (position piece1 =? -1) && negb (isInHomeStretch piece1)
   then checkCapture ps1 piece1 c (position piece1)
   else (ps1, None)) = (ps2, cap) ->
  match cap with
  | Some (c', i) =>
      c' <> c /\
      exists q, piece_at ps c' i = Some q /\
                position q = position piece1 /\ isInHomeStretch q = false /\
                piece_at ps2 c' i = Some (sent_home q)
  | None => forall c', c' <> c -> pieces_of ps2 c' = pieces_of ps c'
  end.
Proof.
  cbv zeta.
  set (ps1 := set_pieces_of ps c (set_nth (pieces_of ps c) n piece1)).
  assert (Hother : forall c', c' <> c -> pieces_of ps1 c' = pieces_of ps c')
    by (intros c' Hne; now apply Capture.pieces_of_set_other).
  destruct (negb (position piece1 =? -1) && negb (isInHomeStretch piece1)).
  - intros Hcap.
    pose proof (proj2 (Capture.checkCapture_effect ps1 piece1 c
                         (position piece1)) _ _ Hcap) as Heffect.
    destruct cap as [[c' i]|].
    + destruct Heffect as (_ & [(Hne & q & Hq & Hcell & Hflag) _]
                           & (q' & Hq' & Hsent) & _).
      split; [exact Hne|]. exists q.
      unfold piece_at in *. rewrite <- (Hother c' Hne).
      repeat split; try assumption. congruence.
    + destruct Heffect as [-> _]. exact Hother.
  - intros Hcap. injection Hcap as <- <-. exact Hother.
Qed.

(** C5 (as amended): when a move is executed in a reachable room, the die
    by which the piece moved is the die last rolled, the event reports the
    capture and the win as they happened, and the turn index is kept when
    the die showed 6 or a piece was captured, and the mover has not just
    won; otherwise it becomes the next index modulo [playerCount].  In a
    room of two or more players the index is unchanged exactly in the
    first case. *)
Theorem move_piece_turn (rooms rooms' : Rooms) (sid roomCode : string)
  (pieceIndex : Z) (room : Room) (c : Color) (old new : Z)
  (cap : option (Color * nat)) (won another : bool) (rest : list Emit) :
  reachable rooms ->
  obj_get rooms roomCode = Some room ->
  move_piece rooms sid roomCode pieceIndex
  = Returned rooms'
      (ToRoom roomCode (piece_moved c pieceIndex old new cap won another)
       :: rest) ->
  exists room',
    obj_get rooms' roomCode = Some room' /\
    lastRoll room = Some (diceValue room) /\
    won = hasWon (pieces room') c /\
    match cap with
    | Some (c', i) =>
        c' <> c /\
        exists q, piece_at (pieces room) c' i = Some q /\
                  position q = new /\ isInHomeStretch q = false /\
                  piece_at (pieces room') c' i = Some (sent_home q)
    | None =>
        forall c', c' <> c ->
                   pieces_of (pieces room') c' = pieces_of (pieces room) c'
    end /\
    let keeps := ((diceValue room =? 6) || is_captured cap) && negb won in
    another = ((diceValue room =? 6) || is_captured cap) /\
    currentPlayer room'
    = (if keeps then currentPlayer room
       else (currentPlayer room + 1) mod playerCount room) /\
    0 <= currentPlayer room < playerCount room /\
    (2 <= playerCount room ->
     (currentPlayer room' = currentPlayer room <-> keeps = true)).
Proof.
  intros Hreach Hroom Hrun.
  destruct (Moves.move_piece_cases rooms sid roomCode pieceIndex)
    as [H|[H|[[H _]|H]]]; try (rewrite H in Hrun; discriminate).
  destruct H as (room0 & player & c0 & piece & piece1 & ps2 & cap0 & H).
  destruct H as (Hroom0 & _ & Hturn & _ & _ & Hpiece & Hcan & _ & Hcap & H).
  rewrite Hroom in Hroom0. injection Hroom0 as <-.
  rewrite H in Hrun.
  injection Hrun as <- <- <- <- <- <- <- _.
  destruct (Forall_obj_get _ _ _ _
              (Invariants.reachable_rooms_ok _ Hreach) Hroom)
    as [Hdice Hcount].
  assert (Hrolled : lastRoll room = Some (diceValue room)).
  { destruct (lastRoll room) as [v|] eqn:Hlast.
    - destruct Hdice as [Hsome|[Hnone _]]; congruence.
    - pose proof (Invariants.unrolled_room_cannot_move
                    _ _ _ _ Hlast Hdice Hpiece).
      congruence. }
  assert (Hsix : lastRoll_is_6 room = (diceValue room =? 6))
    by (unfold lastRoll_is_6; now rewrite Hrolled).
  pose proof (current_player_in_range room sid Hcount Hturn) as Hrange.
  eexists. split; [apply obj_get_set_same|].
  rewrite pieces_after_move, currentPlayer_after_move, Hsix.
  split; [exact Hrolled|]. split; [reflexivity|].
  split; [exact (capture_report _ _ _ _ _ _ Hcap)|].
  cbv zeta. split; [reflexivity|].
  rewrite Z.rem_mod_nonneg by lia.
  set (kept := (diceValue room =? 6) || is_captured cap0).
  split; [|split; [exact Hrange|]].
  - destruct kept, (hasWon ps2 c0); reflexivity.
  - intros Hcount2.
    pose proof (next_player_differs _ _ Hrange Hcount2) as Hnext.
    destruct kept, (hasWon ps2 c0); simpl; split; intros Heq;
      first [reflexivity | discriminate | congruence].
Qed.

(** Alice rolled a 6 against Bob and brings her first piece out: the
    index stays with her. *)
Lemma move_piece_turn_witness :
  exists room',
    obj_get (rooms_of (move_piece (run [] alice_rolls_six) "A" "R1" 0)) "R1"
    = Some room' /\
    currentPlayer room' = 0.
Proof.
  assert (Hreach : reachable (run [] alice_rolls_six)).
  { apply run_reachable; [constructor|].
    repeat (constructor; [simpl; try exact I; lia|]). constructor. }
  destruct (obj_get (run [] alice_rolls_six) "R1") as [room|] eqn:Hroom;
    [|cbv in Hroom; discriminate].
  pose proof Hroom as Hvalue. cbv in Hvalue. injection Hvalue as <-.
  destruct (move_piece_turn
              (run [] alice_rolls_six)
              (rooms_of (move_piece (run [] alice_rolls_six) "A" "R1" 0))
              "A" "R1" 0 _ red (-1) 1 None false true [] Hreach Hroom)
    as (room' & Hroom' & _ & _ & _ & _ & Hturn & _).
  - vm_compute. reflexivity.
  - exists room'. split; [exact Hroom'|exact Hturn].
Defined.

(** C5 (counterexample): Bob has left; Alice, alone, rolled a 3 and moves
    her piece from cell 1 to cell 4.  No 6, no capture, no win, and yet
    the turn index is unchanged: the next index modulo 1 is 0 again. *)
Lemma single_player_keeps_turn :
  reachable (run [] alice_alone_on_track) /\
  exists room room',
    obj_get (run [] alice_alone_on_track) "R1" = Some room /\
    playerCount room = 1 /\ lastRoll room = Some 3 /\ diceValue room = 3 /\
    move_piece (run [] alice_alone_on_track) "A" "R1" 0
    = Returned (obj_set (run [] alice_alone_on_track) "R1" room')
               [ToRoom "R1" (piece_moved red 0 1 4 None false false)] /\
    currentPlayer room' = currentPlayer room.
Proof.
  split.
  - apply run_reachable; [constructor|].
    repeat (constructor; [simpl; try exact I; lia|]). constructor.
  - eexists. eexists. split; [cbv; reflexivity|].
    do 3 (split; [reflexivity|]). split; [cbv; reflexivity|reflexivity].
Qed.

(** Every handler but the disconnect handler keeps the turn index of
    each room below its [playerCount]. *)
Lemma handle_keeps_turn_in_range (rooms : Rooms) (sid : string)
  (req : Request) :
  req <> Disconnect ->
  Forall turn_in_range (obj_values rooms) ->
  Forall turn_in_range (obj_values (rooms_of (handle rooms sid req))).
Proof.
  intros Hreq Hrooms.
  assert (Hnext : forall room, turn_in_range room ->
            0 <= Z.rem (currentPlayer room + 1) (playerCount room)
              < playerCount room)
    by (unfold turn_in_range; intros room Hr; apply Z.rem_bound_pos; lia).
  destruct req as [playerName code|code playerName|code|code d|code idx|];
    simpl; [| | | | |congruence].
  - apply Forall_obj_set; [assumption|]. unfold turn_in_range. simpl. lia.
  - unfold join_room.
    destruct (obj_get rooms code) as [room|] eqn:Hroom; [|assumption].
    destruct (playerCount room >=? 4); [assumption|].
    destruct (gameStarted room); [assumption|]. simpl.
    pose proof (Forall_obj_get _ _ _ _ Hrooms Hroom) as Hr.
    apply Forall_obj_set; [assumption|].
    unfold turn_in_range in *. simpl. lia.
  - unfold start_game.
    destruct (obj_get rooms code) as [room|] eqn:Hroom; [|assumption].
    destruct (negb (isHost_of (players room) sid)); [assumption|].
    destruct (playerCount room <? 2); [assumption|]. simpl.
    apply Forall_obj_set; [assumption|].
    exact (Forall_obj_get _ _ _ _ Hrooms Hroom).
  - unfold roll_dice.
    destruct (obj_get rooms code) as [room|] eqn:Hroom; [|assumption].
    destruct (negb (gameStarted room)); [assumption|].
    destruct (not_current sid room); [assumption|].
    pose proof (Forall_obj_get _ _ _ _ Hrooms Hroom) as Hr.
    cbn [players set_lastRoll set_diceValue pieces].
    destruct (obj_get (players room) sid) as [player|];
      [destruct (color player) as [c|];
       [destruct ((List.length _ =? 0)%nat && negb (d =? 6))|]|];
      simpl; (apply Forall_obj_set; [assumption|]);
      first [exact Hr | exact (Hnext room Hr)].
  - destruct (Moves.move_piece_cases rooms sid code idx)
      as [H|[H|[[H _]|H]]]; try (rewrite H; assumption).
    destruct H as (room & player & c & piece & piece1 & ps2 & cap & H).
    destruct H as (Hroom & _ & _ & _ & _ & _ & _ & _ & _ & H).
    rewrite H. simpl.
    pose proof (Forall_obj_get _ _ _ _ Hrooms Hroom) as Hr.
    apply Forall_obj_set; [assumption|].
    unfold after_move.
    destruct (negb _ || _); first [exact Hr | exact (Hnext room Hr)].
Qed.

End Turn.

(** * Further properties of the rules engine *)

Module RulesMore.

Lemma with_index_In {A} (l : list A) (k : nat) (x : A) (j : nat) :
  In (x, j) (with_index l k) <->
  exists i, j = (k + i)%nat /\ nth_error l i = Some x.
Proof.
  revert k. induction l as [|h t IH]; intros k; simpl.
  - split; [intros []|intros [[|i] [_ Hi]]; discriminate].
  - rewrite IH. split.
    + intros [Heq|(i & -> & Hi)].
      * injection Heq as <- <-. exists 0%nat. split; [lia|reflexivity].
      * exists (S i). split; [lia|exact Hi].
    + intros ([|i] & -> & Hi); simpl in Hi.
      * left. injection Hi as <-. f_equal. lia.
      * right. exists i. split; [lia|exact Hi].
Qed.

(** X1: [getMovablePieces] lists exactly the slots of the colour whose
    piece [canMovePiece] accepts, each with the piece it holds. *)
Theorem getMovablePieces_spec (ps : Pieces) (color : Color) (d : Z)
  (p : Piece) (i : nat) :
  In (p, i) (getMovablePieces ps color d) <->
  piece_at ps color i = Some p /\ canMovePiece p d color = true.
Proof.
  unfold getMovablePieces, piece_at. rewrite filter_In, with_index_In. simpl.
  split.
  - intros [(j & -> & Hj) Hcan]. now split.
  - intros [Hp Hcan]. split; [|exact Hcan]. exists i. now split.
Qed.

(** [moved] is the verdict of [canMovePiece]. *)
Lemma moved_is_canMovePiece (piece : Piece) (d : Z) (color : Color) :
  moved (snd (movePiece piece d color)) = canMovePiece piece d color.
Proof.
  destruct (canMovePiece piece d color) eqn:Hcan.
  - now apply Rules.movePiece_accepted.
  - unfold canMovePiece, movePiece in *.
    destruct (position piece =? -1); simpl.
    + now rewrite Hcan.
    + destruct (isInHomeStretch piece); [|discriminate]. now rewrite Hcan.
Qed.

(** X2: [movePiece] reports [moved] exactly when [canMovePiece] accepts,
    and a refused call leaves the piece as it was. *)
Theorem movePiece_agrees_with_canMovePiece (piece : Piece) (d : Z)
  (color : Color) :
  moved (snd (movePiece piece d color)) = canMovePiece piece d color /\
  (canMovePiece piece d color = false ->
   fst (movePiece piece d color) = piece).
Proof.
  split; [apply moved_is_canMovePiece|].
  intros Hcan. apply Rules.movePiece_not_moved.
  now rewrite moved_is_canMovePiece.
Qed.

Lemma movePiece_agrees_with_canMovePiece_witness :
  canMovePiece (mkPiece 105 0 true) 2 blue = false /\
  fst (movePiece (mkPiece 105 0 true) 2 blue) = mkPiece 105 0 true.
Proof.
  split; [reflexivity|].
  apply (proj2 (movePiece_agrees_with_canMovePiece (mkPiece 105 0 true) 2 blue)).
  reflexivity.
Defined.

(** A piece that is somewhere a piece can be stays so under any die 1..6,
    and keeps its [homeIndex]. *)
Lemma movePiece_keeps_piece_ok (piece : Piece) (d : Z) (color : Color) :
  piece_ok piece -> 1 <= d <= 6 ->
  piece_ok (fst (movePiece piece d color)) /\
  homeIndex (fst (movePiece piece d color)) = homeIndex piece.
Proof.
  intros Hok Hd. pose proof Hok as Hkind.
  unfold movePiece, piece_ok, BOARD_SIZE in *.
  destruct Hkind as [[Hp Hf]|[[Hp Hf]|[Hp Hf]]].
  - (* at home *)
    rewrite Hp. change (-1 =? -1) with true.
    destruct (d =? 6);
      cbn [andb fst set_position position isInHomeStretch homeIndex].
    + split; [|reflexivity]. right; left.
      split; [destruct color; simpl; lia|exact Hf].
    + split; [|reflexivity]. left. now split.
  - (* on the main track *)
    replace (position piece =? -1) with false
      by (symmetry; apply Z.eqb_neq; lia).
    rewrite Hf. cbn [andb].
    assert (Hrem : 0 <= Z.rem (position piece + d) 52 < 52)
      by (apply Z.rem_bound_pos; lia).
    destruct ((position piece <=? HOME_STRETCH_START color)
              && (Z.rem (position piece + d) 52 >? HOME_STRETCH_START color))
      eqn:Hcross.
    + apply andb_true_iff in Hcross. destruct Hcross as [Hle Hgt].
      apply Z.leb_le in Hle. apply Z.gtb_lt in Hgt.
      destruct (Z.rem (position piece + d) 52 - HOME_STRETCH_START color <=? 6)
        eqn:Hsteps;
        cbn [fst set_position set_isInHomeStretch position isInHomeStretch
             homeIndex].
      * apply Z.leb_le in Hsteps. split; [|reflexivity].
        right; right. split; [lia|reflexivity].
      * split; [|reflexivity]. right; left. split; [exact Hrem|exact Hf].
    + cbn [fst set_position position isInHomeStretch homeIndex].
      split; [|reflexivity]. right; left. split; [exact Hrem|exact Hf].
  - (* in the home stretch *)
    replace (position piece =? -1) with false
      by (symmetry; apply Z.eqb_neq; lia).
    rewrite Hf. cbn [andb].
    destruct (position piece - 100 + d <=? 6) eqn:Hfit;
      cbn [fst set_position position isInHomeStretch homeIndex].
    + apply Z.leb_le in Hfit. split; [|reflexivity].
      right; right. split; [lia|exact Hf].
    + split; [|reflexivity]. right; right. now split.
Qed.

(** X3: for a die from 1 to 6, [movePiece] takes a piece that is at home,
    on a main-track cell 0..51, or on a stretch cell 101..106 with the
    matching flag, to a piece of the same kind of description, and never
    changes its [homeIndex]. *)
Theorem movePiece_stays_on_board (piece : Piece) (d : Z) (color : Color) :
  piece_ok piece -> 1 <= d <= 6 ->
  piece_ok (fst (movePiece piece d color)) /\
  homeIndex (fst (movePiece piece d color)) = homeIndex piece.
Proof. exact (movePiece_keeps_piece_ok piece d color). Qed.

Lemma movePiece_stays_on_board_witness :
  piece_ok (mkPiece 10 2 false) /\ 1 <= 5 <= 6 /\
  piece_ok (fst (movePiece (mkPiece 10 2 false) 5 green)).
Proof.
  assert (Hok : piece_ok (mkPiece 10 2 false))
    by (right; left; unfold BOARD_SIZE; simpl; split; [lia|reflexivity]).
  split; [exact Hok|]. split; [lia|].
  apply (movePiece_stays_on_board (mkPiece 10 2 false) 5 green Hok). lia.
Defined.

End RulesMore.

(** * Further properties of capture and of finished pieces *)

Module CaptureMore.

(** Slot by slot, [checkCapture] either keeps the piece or, for the one
    slot it names, sends the opposing piece standing on the cell home. *)
Lemma checkCapture_pointwise (ps : Pieces) (m : Piece) (mover : Color)
  (cell : Z) (c : Color) (i : nat) :
  piece_at (fst (checkCapture ps m mover cell)) c i = piece_at ps c i \/
  (c <> mover /\ snd (checkCapture ps m mover cell) = Some (c, i) /\
   exists p, piece_at ps c i = Some p /\ hit cell p /\
             piece_at (fst (checkCapture ps m mover cell)) c i
             = Some (sent_home p)).
Proof.
  destruct (checkCapture ps m mover cell) as [ps' r] eqn:Hrun. simpl.
  pose proof (proj2 (Capture.checkCapture_effect ps m mover cell) _ _ Hrun)
    as Heffect.
  destruct r as [[c0 i0]|].
  - destruct Heffect as (_ & [(Hne & q & Hq & Hhit) _] & (q' & Hq' & Hsent)
                         & Hothers).
    destruct (Color_eqb c c0) eqn:Hc; [destruct (Nat.eq_dec i i0) as [->|Hi]|].
    + apply Color_eqb_eq in Hc. subst c0. right.
      split; [exact Hne|]. split; [reflexivity|]. exists q.
      repeat split; try apply Hhit; try assumption. congruence.
    + left. apply Hothers. congruence.
    + left. apply Hothers. apply Color_eqb_neq in Hc. congruence.
  - destruct Heffect as [-> _]. now left.
Qed.

Lemma same_slots_same_length {A} (l l' : list A) :
  (forall i, nth_error l i = None <-> nth_error l' i = None) ->
  List.length l = List.length l'.
Proof.
  intros Hslots.
  assert (H1 : (List.length l' <= List.length l)%nat).
  { apply nth_error_None, Hslots, nth_error_None. lia. }
  assert (H2 : (List.length l <= List.length l')%nat).
  { apply nth_error_None, Hslots, nth_error_None. lia. }
  lia.
Qed.

(** X4: [checkCapture] never changes a piece of the moving colour, never
    changes a piece that is in its home stretch, and keeps the number of
    slots of every colour. *)
Theorem checkCapture_frame (ps : Pieces) (m : Piece) (mover : Color)
  (cell : Z) :
  pieces_of (fst (checkCapture ps m mover cell)) mover = pieces_of ps mover /\
  (forall c i p,
     piece_at ps c i = Some p -> isInHomeStretch p = true ->
     piece_at (fst (checkCapture ps m mover cell)) c i = Some p) /\
  (forall c,
     List.length (pieces_of (fst (checkCapture ps m mover cell)) c)
     = List.length (pieces_of ps c)).
Proof.
  split; [|split].
  - apply nth_error_ext. intros i.
    destruct (checkCapture_pointwise ps m mover cell mover i)
      as [Hsame|[Hne _]]; [exact Hsame|congruence].
  - intros c i p Hp Hst.
    destruct (checkCapture_pointwise ps m mover cell c i)
      as [Hsame|(_ & _ & q & Hq & [_ Hflag] & _)]; [congruence|].
    congruence.
  - intros c. apply same_slots_same_length. intros i.
    destruct (checkCapture_pointwise ps m mover cell c i)
      as [Hsame|(_ & _ & q & Hq & _ & Hsent)].
    + unfold piece_at in Hsame. now rewrite Hsame.
    + unfold piece_at in *. rewrite Hq, Hsent. split; discriminate.
Qed.

(** A sound board stays sound under [checkCapture]. *)
Lemma checkCapture_keeps_board_ok (ps : Pieces) (m : Piece) (mover : Color)
  (cell : Z) :
  board_ok ps -> board_ok (fst (checkCapture ps m mover cell)).
Proof.
  intros Hboard c i. specialize (Hboard c i).
  destruct (checkCapture_pointwise ps m mover cell c i)
    as [Hsame|(_ & _ & q & Hq & _ & Hsent)].
  - now rewrite Hsame.
  - rewrite Hsent. rewrite Hq in Hboard.
    destruct Hboard as (Hi & _ & Hidx). repeat split; try assumption.
    left. now split.
Qed.

(** Every colour's start cell is a safe cell. *)
Lemma start_cells_safe (c : Color) :
  includes SAFE_POSITIONS (START_POSITIONS c) = true.
Proof. now destruct c. Qed.

(** X5: a move that takes a piece out of home (old position -1) puts it
    on its colour's start cell, which is a safe cell, and captures
    nothing. *)
Theorem entering_piece_never_captures (rooms rooms' : Rooms)
  (sid roomCode : string) (pieceIndex : Z) (c : Color) (new : Z)
  (cap : option (Color * nat)) (won another : bool) (rest : list Emit) :
  move_piece rooms sid roomCode pieceIndex
  = Returned rooms'
      (ToRoom roomCode (piece_moved c pieceIndex (-1) new cap won another)
       :: rest) ->
  new = START_POSITIONS c /\ In new SAFE_POSITIONS /\ cap = None.
Proof.
  intros Hrun.
  destruct (Moves.move_piece_cases rooms sid roomCode pieceIndex)
    as [H|[H|[[H _]|H]]]; try (rewrite H in Hrun; discriminate).
  destruct H as (room & player & c0 & piece & piece1 & ps2 & cap0 & H).
  destruct H as (_ & _ & _ & _ & _ & _ & Hcan & Hmove & Hcap & H).
  rewrite H in Hrun. injection Hrun as _ <- Hold <- <- _ _ _.
  unfold canMovePiece in Hcan. unfold movePiece in Hmove.
  rewrite Hold in Hcan, Hmove. change (-1 =? -1) with true in *.
  cbv iota in Hcan. rewrite Hcan in Hmove. simpl in Hmove. subst piece1.
  cbv zeta in Hcap.
  cbn [set_position position isInHomeStretch] in *.
  split; [reflexivity|].
  split; [apply Capture.includes_In, start_cells_safe|].
  destruct (negb (START_POSITIONS c0 =? -1) && negb (isInHomeStretch piece)).
  - unfold checkCapture in Hcap. rewrite start_cells_safe in Hcap.
    now injection Hcap as _ <-.
  - now injection Hcap as _ <-.
Qed.

Lemma entering_piece_never_captures_witness :
  1 = START_POSITIONS red /\ In 1 SAFE_POSITIONS.
Proof.
  destruct (entering_piece_never_captures
              (run [] alice_rolls_six)
              (rooms_of (move_piece (run [] alice_rolls_six) "A" "R1" 0))
              "A" "R1" 0 red 1 None false true [])
    as (Hstart & Hsafe & _).
  - vm_compute. reflexivity.
  - split; [exact Hstart|exact Hsafe].
Defined.



End CaptureMore.

(** * Further facts about objects *)

Section ObjectMore.
Context {V : Type}.
Implicit Types (o : Obj V) (k : string) (v : V).

Lemma obj_get_delete_other o k k' :
  k' <> k -> obj_get (obj_delete o k) k' = obj_get o k'.
Proof.
  intros Hne. induction o as [|[k0 v0] t IH]; simpl; [reflexivity|].
  destruct (String.eqb k0 k) eqn:Hk; simpl.
  - apply String.eqb_eq in Hk. subst k0.
    replace (String.eqb k k') with false
      by (symmetry; apply String.eqb_neq; congruence).
    exact IH.
  - now rewrite IH.
Qed.

Lemma obj_values_set_In o k v x :
  In x (obj_values (obj_set o k v)) -> x = v \/ In x (obj_values o).
Proof.
  induction o as [|[k0 v0] t IH]; simpl.
  - intros [<-|[]]. now left.
  - destruct (String.eqb k0 k); simpl; intros [<-|Hin]; auto.
    destruct (IH Hin); auto.
Qed.

Lemma obj_values_delete_In o k x :
  In x (obj_values (obj_delete o k)) -> In x (obj_values o).
Proof.
  induction o as [|[k0 v0] t IH]; simpl; [intros []|].
  destruct (String.eqb k0 k); simpl; [auto|]. intros [<-|Hin]; auto.
Qed.

Lemma obj_keys_delete_In o k x :
  In x (obj_keys (obj_delete o k)) -> In x (obj_keys o).
Proof.
  induction o as [|[k0 v0] t IH]; simpl; [intros []|].
  destruct (String.eqb k0 k); simpl; [auto|]. intros [<-|Hin]; auto.
Qed.

Lemma obj_keys_set_In o k v x :
  In x (obj_keys (obj_set o k v)) -> x = k \/ In x (obj_keys o).
Proof.
  induction o as [|[k0 v0] t IH]; simpl.
  - intros [<-|[]]. now left.
  - destruct (String.eqb k0 k); simpl; intros [<-|Hin]; auto.
    destruct (IH Hin); auto.
Qed.

(** Writing a key that is present keeps the key order. *)
Lemma obj_keys_set_present o k v v0 :
  obj_get o k = Some v0 -> obj_keys (obj_set o k v) = obj_keys o.
Proof.
  induction o as [|[k0 v1] t IH]; simpl; [discriminate|].
  destruct (String.eqb k0 k) eqn:Hk; simpl.
  - apply String.eqb_eq in Hk. now subst.
  - intros H. now rewrite IH.
Qed.

Lemma obj_keys_set_NoDup o k v :
  NoDup (obj_keys o) -> NoDup (obj_keys (obj_set o k v)).
Proof.
  induction o as [|[k0 v0] t IH]; simpl; intros Hnd.
  - repeat constructor. intros [].
  - inversion Hnd as [|? ? Hk0 Ht]; subst.
    destruct (String.eqb k0 k) eqn:Hk; simpl.
    + apply String.eqb_eq in Hk. subst k0. now constructor.
    + constructor; [|now apply IH].
      intros Hin. apply obj_keys_set_In in Hin. destruct Hin as [->|Hin].
      * now rewrite String.eqb_refl in Hk.
      * contradiction.
Qed.

Lemma obj_keys_delete_NoDup o k :
  NoDup (obj_keys o) -> NoDup (obj_keys (obj_delete o k)).
Proof.
  induction o as [|[k0 v0] t IH]; simpl; intros Hnd; [constructor|].
  inversion Hnd as [|? ? Hk0 Ht]; subst.
  destruct (String.eqb k0 k); simpl; [now apply IH|].
  constructor; [|now apply IH].
  intros Hin. now apply obj_keys_delete_In in Hin.
Qed.

(** With each key once, an entry is what a lookup of its key finds. *)
Lemma obj_get_entry o k v :
  NoDup (obj_keys o) -> In (k, v) o -> obj_get o k = Some v.
Proof.
  induction o as [|[k0 v0] t IH]; simpl; intros Hnd Hin; [destruct Hin|].
  inversion Hnd as [|? ? Hk0 Ht]; subst.
  destruct Hin as [Heq|Hin].
  - injection Heq as -> ->. now rewrite String.eqb_refl.
  - destruct (String.eqb k0 k) eqn:Hk; [|now apply IH].
    apply String.eqb_eq in Hk. subst k0. exfalso. apply Hk0.
    change k with (fst (k, v)). now apply in_map.
Qed.

Section Images.
Context {W : Type} (f : V -> W).

Lemma obj_set_images_NoDup o k v :
  NoDup (map f (obj_values o)) -> ~ In (f v) (map f (obj_values o)) ->
  NoDup (map f (obj_values (obj_set o k v))).
Proof.
  induction o as [|[k0 v0] t IH]; simpl; intros Hnd Hnew.
  - repeat constructor. intros [].
  - inversion Hnd as [|? ? Hv0 Ht]; subst.
    destruct (String.eqb k0 k); simpl.
    + constructor; [tauto|exact Ht].
    + constructor; [|apply IH; tauto].
      intros Hin. apply in_map_iff in Hin. destruct Hin as (x & Hfx & Hx).
      apply obj_values_set_In in Hx. destruct Hx as [->|Hx].
      * apply Hnew. now left.
      * apply Hv0. rewrite <- Hfx. now apply in_map.
Qed.

Lemma obj_delete_images_NoDup o k :
  NoDup (map f (obj_values o)) -> NoDup (map f (obj_values (obj_delete o k))).
Proof.
  induction o as [|[k0 v0] t IH]; simpl; intros Hnd; [constructor|].
  inversion Hnd as [|? ? Hv0 Ht]; subst.
  destruct (String.eqb k0 k); simpl; [now apply IH|].
  constructor; [|now apply IH].
  intros Hin. apply in_map_iff in Hin. destruct Hin as (x & Hfx & Hx).
  apply obj_values_delete_In in Hx. apply Hv0. rewrite <- Hfx.
  now apply in_map.
Qed.
End Images.

Section Counting.
Context (g : V -> bool).

Lemma obj_set_count o k v :
  g v = false ->
  (List.length (filter g (obj_values (obj_set o k v)))
   <= List.length (filter g (obj_values o)))%nat.
Proof.
  intros Hv. induction o as [|[k0 v0] t IH]; simpl.
  - rewrite Hv. simpl. lia.
  - destruct (String.eqb k0 k); simpl.
    + rewrite Hv. destruct (g v0); simpl; lia.
    + destruct (g v0); simpl; lia.
Qed.

Lemma obj_delete_count o k :
  (List.length (filter g (obj_values (obj_delete o k)))
   <= List.length (filter g (obj_values o)))%nat.
Proof.
  induction o as [|[k0 v0] t IH]; simpl; [lia|].
  destruct (String.eqb k0 k); simpl; destruct (g v0); simpl; lia.
Qed.
End Counting.

End ObjectMore.

(** * Soundness of reachable registries *)

Module Soundness.

Lemma fresh_board_ok :
  board_ok (mkPieces initial_pieces_row initial_pieces_row
                     initial_pieces_row initial_pieces_row).
Proof.
  intros c i. unfold piece_at.
  destruct c; simpl; destruct i as [|[|[|[|i]]]]; simpl;
    try (repeat split; [lia|left; split; reflexivity]);
    destruct i; simpl; lia.
Qed.

Lemma board_ok_set (ps : Pieces) (c : Color) (n : nat) (p p' : Piece) :
  board_ok ps -> piece_at ps c n = Some p ->
  piece_ok p' -> homeIndex p' = homeIndex p ->
  board_ok (set_pieces_of ps c (set_nth (pieces_of ps c) n p')).
Proof.
  intros Hboard Hp Hok Hidx c' i. unfold piece_at in *.
  destruct (Color_eqb c' c) eqn:Hc.
  - apply Color_eqb_eq in Hc. subst c'. rewrite Capture.pieces_of_set_same.
    destruct (Nat.eq_dec i n) as [->|Hne].
    + rewrite (Capture.nth_error_set_nth_eq _ _ _ _ Hp).
      specialize (Hboard c n). unfold piece_at in Hboard.
      rewrite Hp in Hboard. destruct Hboard as (Hn & _ & Hslot).
      repeat split; [exact Hn|exact Hok|congruence].
    + rewrite Capture.nth_error_set_nth_ne by exact Hne. exact (Hboard c i).
  - apply Color_eqb_neq in Hc. rewrite Capture.pieces_of_set_other by exact Hc.
    exact (Hboard c' i).
Qed.

(** The pieces after an executed move form a sound board again. *)
Lemma moved_board_ok (ps ps2 : Pieces) (c : Color) (idx d : Z)
  (piece : Piece) (cap : option (Color * nat)) :
  board_ok ps -> 1 <= d <= 6 ->
  js_index (pieces_of ps c) idx = Some piece ->
  (let ps1 :=
     set_pieces_of ps c
       (set_nth (pieces_of ps c) (Z.to_nat idx) (fst (movePiece piece d c))) in
   if negb (position (fst (movePiece piece d c)) =? -1)
      && negb (isInHomeStretch (fst (movePiece piece d c)))
   then checkCapture ps1 (fst (movePiece piece d c)) c
                     (position (fst (movePiece piece d c)))
   else (ps1, None)) = (ps2, cap) ->
  board_ok ps2.
Proof.
  intros Hboard Hd Hpiece Hcap.
  apply Invariants.js_index_Some in Hpiece. destruct Hpiece as (_ & Hnth & _).
  assert (Hok : piece_ok piece).
  { specialize (Hboard c (Z.to_nat idx)). unfold piece_at in Hboard.
    rewrite Hnth in Hboard. apply Hboard. }
  destruct (RulesMore.movePiece_keeps_piece_ok piece d c Hok Hd)
    as [Hok1 Hidx1].
  pose proof (board_ok_set ps c (Z.to_nat idx) piece _ Hboard Hnth Hok1 Hidx1)
    as Hboard1.
  cbv zeta in Hcap.
  destruct (negb _ && negb _) in Hcap.
  - pose proof (CaptureMore.checkCapture_keeps_board_ok _
                  (fst (movePiece piece d c)) c
                  (position (fst (movePiece piece d c))) Hboard1) as Hboard2.
    now rewrite Hcap in Hboard2.
  - now injection Hcap as <- _.
Qed.

Lemma created_room_sound (sid playerName code : string) :
  room_sound (createGameState sid (mkPlayer playerName (Some red) true) code).
Proof.
  split; [exact fresh_board_ok|]. split; [simpl; lia|].
  unfold members_ok, members_counted, used_colors, host_count. simpl.
  repeat split; try lia; try (repeat constructor; intros []);
    first [discriminate | contradiction].
Qed.

(** The colour a joiner is given, in a room that is not full. *)
Lemma join_color_fresh (room : Room) :
  members_counted room -> playerCount room < 4 ->
  exists c,
    find (fun color =>
            negb (existsb (fun u => same_color u color) (used_colors room)))
         colors = Some c /\
    ~ In (Some c) (used_colors room).
Proof.
  intros Hcount Hroom.
  set (free := fun color : Color =>
         negb (existsb (fun u => same_color u color) (used_colors room))).
  pose proof (Lobby.find_colors free) as Hfind.
  assert (Hfree : forall c, free c = false <-> In (Some c) (used_colors room)).
  { intros c. unfold free. rewrite negb_false_iff. apply Lobby.used_test. }
  destruct (find free colors) as [c|].
  - exists c. split; [reflexivity|]. rewrite <- Hfree.
    destruct Hfind as [Hc _]. congruence.
  - exfalso.
    assert (Hall : forall c, In (Some c) (used_colors room))
      by (intros c; apply Hfree, Hfind).
    apply Lobby.all_colors_used in Hall.
    unfold used_colors, obj_values, members_counted in *.
    rewrite !length_map in Hall. lia.
Qed.

Lemma joined_room_sound (room : Room) (sid playerName : string) :
  room_sound room -> playerCount room < 4 ->
  room_sound
    (set_playerCount
       (set_players room
          (obj_set (players room) sid
             (mkPlayer playerName
                (find (fun color =>
                         negb (existsb (fun u => same_color u color)
                                       (used_colors room)))
                      colors)
                false)))
       (playerCount room + 1)).
Proof.
  intros (Hboard & Hdie & Hpc & Hcount & Hkeys & Hcolors & Hdef & Hhost) Hroom.
  destruct (join_color_fresh room Hcount Hroom) as (c & -> & Hfresh).
  split; [exact Hboard|]. split; [exact Hdie|].
  unfold members_ok, members_counted, used_colors, host_count in *.
  cbn [players set_players set_playerCount playerCount].
  repeat split.
  - lia.
  - lia.
  - pose proof (obj_set_length (players room) sid
                  (mkPlayer playerName (Some c) false)). lia.
  - now apply obj_keys_set_NoDup.
  - now apply obj_set_images_NoDup.
  - intros Hin. apply in_map_iff in Hin. destruct Hin as (x & Hx & Hin).
    apply obj_values_set_In in Hin. destruct Hin as [->|Hin];
      [discriminate|]. apply Hdef. rewrite <- Hx. now apply in_map.
  - pose proof (obj_set_count isHost (players room) sid
                  (mkPlayer playerName (Some c) false) eq_refl). lia.
Qed.

Lemma left_room_sound (room : Room) (sid : string) (p : Player) :
  room_sound room -> obj_get (players room) sid = Some p ->
  playerCount room - 1 <> 0 ->
  room_sound
    (set_playerCount (set_players room (obj_delete (players room) sid))
                     (playerCount room - 1)).
Proof.
  intros (Hboard & Hdie & Hpc & Hcount & Hkeys & Hcolors & Hdef & Hhost)
         Hp Hleft.
  split; [exact Hboard|]. split; [exact Hdie|].
  unfold members_ok, members_counted, used_colors, host_count in *.
  cbn [players set_players set_playerCount playerCount].
  repeat split.
  - lia.
  - lia.
  - pose proof (obj_delete_length _ _ _ Hp). lia.
  - now apply obj_keys_delete_NoDup.
  - now apply obj_delete_images_NoDup.
  - intros Hin. apply in_map_iff in Hin. destruct Hin as (x & Hx & Hin).
    apply obj_values_delete_In in Hin. apply Hdef. rewrite <- Hx.
    now apply in_map.
  - pose proof (obj_delete_count isHost (players room) sid). lia.
Qed.



Lemma leave_room_sound (rooms : Rooms) (sid roomCode : string) (room : Room)
  (p : Player) :
  Forall room_sound (obj_values rooms) -> room_sound room ->
  obj_get (players room) sid = Some p ->
  Forall room_sound (obj_values (fst (leave_room rooms sid roomCode room))).
Proof.
  intros Hrooms Hroom Hp.
  destruct (Z.eq_dec (playerCount room - 1) 0) as [Hzero|Hleft].
  - unfold leave_room. cbn [players set_players set_playerCount playerCount].
    rewrite Hzero. simpl. now apply Forall_obj_delete.
  - rewrite Departure.leave_room_effect by assumption. simpl.
    apply Forall_obj_set; [assumption|]. eapply left_room_sound; eassumption.
Qed.

Lemma disconnect_loop_sound (entries : list (string * Room)) (rooms : Rooms)
  (sid : string) :
  Forall room_sound (obj_values entries) ->
  Forall room_sound (obj_values rooms) ->
  Forall room_sound (obj_values (fst (disconnect_loop entries rooms sid))).
Proof.
  induction entries as [|[code room] rest IH]; simpl; intros Hentries Hrooms.
  - assumption.
  - inversion Hentries as [|? ? Hroom Hrest]; subst.
    destruct (obj_get (players room) sid) as [p|] eqn:Hp.
    + eapply leave_room_sound; eassumption.
    + now apply IH.
Qed.

Lemma handle_sound (rooms : Rooms) (sid : string) (req : Request) :
  Forall room_sound (obj_values rooms) -> well_formed req ->
  Forall room_sound (obj_values (rooms_of (handle rooms sid req))).
Proof.
  intros Hrooms Hreq.
  destruct req as [playerName code|code playerName|code|code d|code idx|];
    simpl.
  - apply Forall_obj_set; [assumption|apply created_room_sound].
  - unfold join_room.
    destruct (obj_get rooms code) as [room|] eqn:Hroom; [|assumption].
    destruct (playerCount room >=? 4) eqn:Hfull; [assumption|].
    destruct (gameStarted room); [assumption|].
    cbn [rooms_of players set_players].
    apply Forall_obj_set; [assumption|].
    rewrite Z.geb_leb in Hfull. apply Z.leb_gt in Hfull.
    exact (joined_room_sound room sid playerName
             (Forall_obj_get _ _ _ _ Hrooms Hroom) ltac:(lia)).
  - unfold start_game.
    destruct (obj_get rooms code) as [room|] eqn:Hroom; [|assumption].
    destruct (negb (isHost_of (players room) sid)); [assumption|].
    destruct (playerCount room <? 2); [assumption|]. simpl.
    apply Forall_obj_set; [assumption|].
    exact (Forall_obj_get _ _ _ _ Hrooms Hroom).
  - unfold roll_dice. simpl in Hreq.
    destruct (obj_get rooms code) as [room|] eqn:Hroom; [|assumption].
    destruct (negb (gameStarted room)); [assumption|].
    destruct (not_current sid room); [assumption|].
    destruct (Forall_obj_get _ _ _ _ Hrooms Hroom) as (Hboard & _ & Hmem).
    cbn [players set_lastRoll set_diceValue pieces].
    destruct (obj_get (players room) sid) as [player|];
      [destruct (color player) as [c|];
       [destruct ((List.length _ =? 0)%nat && negb (d =? 6))|]|];
      simpl; (apply Forall_obj_set; [assumption|]);
      (split; [exact Hboard|split; [exact Hreq|exact Hmem]]).
  - destruct (Moves.move_piece_cases rooms sid code idx)
      as [H|[H|[[H _]|H]]]; try (rewrite H; assumption).
    destruct H as (room & player & c & piece & piece1 & ps2 & cap & H).
    destruct H as (Hroom & _ & _ & _ & _ & Hpiece & _ & Hmove & Hcap & H).
    rewrite H. simpl.
    destruct (Forall_obj_get _ _ _ _ Hrooms Hroom) as (Hboard & Hdie & Hmem).
    apply Forall_obj_set; [assumption|]. subst piece1.
    pose proof (moved_board_ok _ _ _ _ _ _ _ Hboard Hdie Hpiece Hcap)
      as Hboard2.
    unfold after_move.
    destruct (negb _ || _);
      (split; [exact Hboard2|split; [exact Hdie|exact Hmem]]).
  - unfold disconnect.
    pose proof (disconnect_loop_sound rooms rooms sid Hrooms Hrooms) as Hloop.
    destruct (disconnect_loop rooms rooms sid) as [rooms' out]. exact Hloop.
Qed.

(** A handler leaves the registry alone, writes one room, or deletes one. *)
Lemma handle_shape (rooms : Rooms) (sid : string) (req : Request) :
  rooms_of (handle rooms sid req) = rooms \/
  (exists k v, rooms_of (handle rooms sid req) = obj_set rooms k v) \/
  (exists k, rooms_of (handle rooms sid req) = obj_delete rooms k).
Proof.
  destruct req as [playerName code|code playerName|code|code d|code idx|];
    simpl.
  - right; left. eexists. eexists. reflexivity.
  - unfold join_room.
    destruct (obj_get rooms code) as [room|]; [|now left].
    destruct (playerCount room >=? 4); [now left|].
    destruct (gameStarted room); [now left|].
    right; left. eexists. eexists. reflexivity.
  - unfold start_game.
    destruct (obj_get rooms code) as [room|]; [|now left].
    destruct (negb (isHost_of (players room) sid)); [now left|].
    destruct (playerCount room <? 2); [now left|].
    right; left. eexists. eexists. reflexivity.
  - unfold roll_dice.
    destruct (obj_get rooms code) as [room|]; [|now left].
    destruct (negb (gameStarted room)); [now left|].
    destruct (not_current sid room); [now left|].
    cbn [players set_lastRoll set_diceValue pieces].
    destruct (obj_get (players room) sid) as [player|];
      [destruct (color player) as [c|];
       [destruct ((List.length _ =? 0)%nat && negb (d =? 6))|]|];
      right; left; eexists; eexists; reflexivity.
  - destruct (Moves.move_piece_cases rooms sid code idx)
      as [H|[H|[[H _]|H]]]; try (rewrite H; now left).
    destruct H as (room & player & c & piece & piece1 & ps2 & cap & H).
    destruct H as (_ & _ & _ & _ & _ & _ & _ & _ & _ & H).
    rewrite H. right; left. eexists. eexists. reflexivity.
  - unfold disconnect.
    assert (Hloop : forall entries,
              fst (disconnect_loop entries rooms sid) = rooms \/
              (exists k v, fst (disconnect_loop entries rooms sid)
                           = obj_set rooms k v) \/
              (exists k, fst (disconnect_loop entries rooms sid)
                         = obj_delete rooms k)).
    { induction entries as [|[code room] rest IH]; simpl; [now left|].
      destruct (obj_get (players room) sid); [|exact IH].
      unfold leave_room. destruct (_ =? 0); simpl.
      - right; right. eexists. reflexivity.
      - right; left. eexists. eexists. reflexivity. }
    specialize (Hloop rooms).
    destruct (disconnect_loop rooms rooms sid) as [rooms' out]. exact Hloop.
Qed.

Lemma handle_registry_ok (rooms : Rooms) (sid : string) (req : Request) :
  registry_ok rooms -> well_formed req ->
  registry_ok (rooms_of (handle rooms sid req)).
Proof.
  intros [Hkeys Hrooms] Hreq. split; [|now apply handle_sound].
  destruct (handle_shape rooms sid req) as [->|[(k & v & ->)|(k & ->)]].
  - exact Hkeys.
  - now apply obj_keys_set_NoDup.
  - now apply obj_keys_delete_NoDup.
Qed.

Lemma reachable_registry_ok (rooms : Rooms) :
  reachable rooms -> registry_ok rooms.
Proof.
  induction 1 as [|rooms sid req _ IH Hreq].
  - split; constructor.
  - now apply handle_registry_ok.
Qed.

Lemma reachable_room_sound (rooms : Rooms) (code : string) (room : Room) :
  reachable rooms -> obj_get rooms code = Some room -> room_sound room.
Proof.
  intros Hreach Hroom.
  exact (Forall_obj_get _ _ _ _ (proj2 (reachable_registry_ok _ Hreach)) Hroom).
Qed.

End Soundness.

(** * What holds of every reachable registry *)

Module Guarantees.

Lemma game_alice_bob_reachable : reachable (run [] game_alice_bob).
Proof. apply run_reachable; [constructor|]. repeat constructor. Qed.

Lemma alice_rolls_six_reachable : reachable (run [] alice_rolls_six).
Proof.
  apply run_reachable; [constructor|].
  repeat (constructor; [simpl; try exact I; lia|]). constructor.
Qed.

(** X7: in every reachable room each colour has exactly the slots 0..3;
    each piece is at home (-1), on a main-track cell 0..51, or on a
    home-stretch cell 101..106, with [isInHomeStretch] set exactly in the
    last case; its [homeIndex] is its slot; and the die field is between
    1 and 6. *)
Theorem reachable_board_sound (rooms : Rooms) (code : string) (room : Room) :
  reachable rooms -> obj_get rooms code = Some room ->
  board_ok (pieces room) /\ 1 <= diceValue room <= 6.
Proof.
  intros Hreach Hroom.
  destruct (Soundness.reachable_room_sound _ _ _ Hreach Hroom)
    as (Hboard & Hdie & _).
  now split.
Qed.

Lemma reachable_board_sound_witness :
  exists room,
    obj_get (run [] alice_rolls_six) "R1" = Some room /\
    board_ok (pieces room) /\ 1 <= diceValue room <= 6.
Proof.
  destruct (obj_get (run [] alice_rolls_six) "R1") as [room|] eqn:Hroom;
    [|cbv in Hroom; discriminate].
  exists room. split; [reflexivity|].
  exact (reachable_board_sound _ _ _ alice_rolls_six_reachable Hroom).
Defined.

(** X8: in every reachable room [playerCount] is between 1 and 4 and is
    at least the number of players listed; each socket is listed once;
    every player has a colour and no two share one; and at most one
    player is host. *)
Theorem reachable_members_sound (rooms : Rooms) (code : string) (room : Room) :
  reachable rooms -> obj_get rooms code = Some room -> members_ok room.
Proof.
  intros Hreach Hroom.
  apply (Soundness.reachable_room_sound _ _ _ Hreach Hroom).
Qed.

Lemma reachable_members_sound_witness :
  exists room,
    obj_get (run [] game_alice_bob) "R1" = Some room /\ members_ok room.
Proof.
  destruct (obj_get (run [] game_alice_bob) "R1") as [room|] eqn:Hroom;
    [|cbv in Hroom; discriminate].
  exists room. split; [reflexivity|].
  exact (reachable_members_sound _ _ _ game_alice_bob_reachable Hroom).
Defined.

(** X9: in every reachable room [lastRoll] is the die field [diceValue],
    unless no die was rolled yet: then [lastRoll] is [null], the die
    field holds its initial 1 and every piece is at home. *)
Theorem reachable_dice_recorded (rooms : Rooms) (code : string) (room : Room) :
  reachable rooms -> obj_get rooms code = Some room -> dice_recorded room.
Proof.
  intros Hreach Hroom.
  apply (Forall_obj_get _ _ _ _ (Invariants.reachable_rooms_ok _ Hreach) Hroom).
Qed.

Lemma reachable_dice_recorded_witness :
  exists room,
    obj_get (run [] alice_rolls_six) "R1" = Some room /\ dice_recorded room.
Proof.
  destruct (obj_get (run [] alice_rolls_six) "R1") as [room|] eqn:Hroom;
    [|cbv in Hroom; discriminate].
  exists room. split; [reflexivity|].
  exact (reachable_dice_recorded _ _ _ alice_rolls_six_reachable Hroom).
Defined.




End Guarantees.

(** * Further properties of the room manager *)

Module Lifecycle.

Lemma obj_get_set_cases {V} (o : Obj V) (k k' : string) (v x : V) :
  obj_get (obj_set o k v) k' = Some x ->
  (k' = k /\ x = v) \/ (k' <> k /\ obj_get o k' = Some x).
Proof.
  destruct (String.eqb k' k) eqn:Hk.
  - apply String.eqb_eq in Hk. subst k'. rewrite obj_get_set_same.
    intros H. injection H as <-. now left.
  - apply String.eqb_neq in Hk. rewrite obj_get_set_other by exact Hk.
    intros H. now right.
Qed.

Lemma obj_get_delete_cases {V} (o : Obj V) (k k' : string) (x : V) :
  obj_get (obj_delete o k) k' = Some x ->
  k' <> k /\ obj_get o k' = Some x.
Proof.
  destruct (String.eqb k' k) eqn:Hk.
  - apply String.eqb_eq in Hk. subst k'. now rewrite obj_get_delete_same.
  - apply String.eqb_neq in Hk. rewrite obj_get_delete_other by exact Hk.
    intros H. now split.
Qed.

(** X11: after create-room the code names a room that lists the creator
    alone, as red host, with [playerCount] 1 and not started, whatever
    the code named before; every other code names what it named. *)
Theorem create_room_lookup (rooms : Rooms) (sid playerName code : string) :
  (exists room,
     obj_get (rooms_of (create_room rooms sid playerName code)) code
     = Some room /\
     players room = [(sid, mkPlayer playerName (Some red) true)] /\
     playerCount room = 1 /\ gameStarted room = false /\
     currentPlayer room = 0 /\
     forall c i p, piece_at (pieces room) c i = Some p -> position p = -1) /\
  (forall code',
     code' <> code ->
     obj_get (rooms_of (create_room rooms sid playerName code)) code'
     = obj_get rooms code').
Proof.
  unfold create_room. cbn [rooms_of]. split.
  - eexists. split; [apply obj_get_set_same|].
    repeat split.
    destruct (Invariants.created_room_ok sid
                (mkPlayer playerName (Some red) true) code)
      as [[Hdice|(_ & _ & Hhome)] _]; [discriminate|exact Hhome].
  - intros code' Hne. now apply obj_get_set_other.
Qed.



(** X13: a socket that is already listed in an open room and joins it
    again gets no second entry: its entry is overwritten in place with
    [isHost] false, the key order is kept, and [playerCount] still goes
    up by one. *)
Theorem rejoin_overwrites_player (rooms : Rooms) (sid code playerName : string)
  (room : Room) (p : Player) :
  obj_get rooms code = Some room ->
  playerCount room < 4 -> gameStarted room = false ->
  obj_get (players room) sid = Some p ->
  exists room' p',
    obj_get (rooms_of (join_room rooms sid code playerName)) code
    = Some room' /\
    obj_keys (players room') = obj_keys (players room) /\
    playerCount room' = playerCount room + 1 /\
    obj_get (players room') sid = Some p' /\
    name p' = playerName /\ isHost p' = false.
Proof.
  intros Hroom Hcount Hopen Hp. unfold join_room. rewrite Hroom, Hopen.
  replace (playerCount room >=? 4) with false
    by (symmetry; rewrite Z.geb_leb; apply Z.leb_gt; lia).
  cbn [rooms_of]. eexists. eexists.
  split; [apply obj_get_set_same|].
  cbn [players set_players set_playerCount playerCount].
  split; [eapply obj_keys_set_present; eassumption|].
  split; [reflexivity|].
  split; [apply obj_get_set_same|]. split; reflexivity.
Qed.

Lemma rejoin_overwrites_player_witness :
  exists room' p',
    obj_get (rooms_of (join_room (run [] lobby_alice) "A" "R1" "Alice")) "R1"
    = Some room' /\
    obj_keys (players room') = ["A"] /\
    playerCount room' = 2 /\
    obj_get (players room') "A" = Some p' /\ isHost p' = false.
Proof.
  destruct (obj_get (run [] lobby_alice) "R1") as [room|] eqn:Hroom;
    [|cbv in Hroom; discriminate].
  pose proof Hroom as Hvalue. cbv in Hvalue. injection Hvalue as <-.
  destruct (rejoin_overwrites_player (run [] lobby_alice) "A" "R1" "Alice"
              _ (mkPlayer "Alice" (Some red) true) Hroom
              ltac:(simpl; lia) eq_refl eq_refl)
    as (room' & p' & Hroom' & Hkeys & Hpc & Hp' & _ & Hhost).
  exists room', p'. repeat split; assumption.
Defined.

Lemma evolves_refl (room : Room) : evolves room room.
Proof. split; [reflexivity|]. intros Hs. split; [exact Hs|auto]. Qed.

(** The registry after a disconnect, code by code. *)
Lemma disconnect_loop_get (entries : list (string * Room)) (rooms : Rooms)
  (sid code : string) (room' : Room) :
  NoDup (obj_keys rooms) -> incl entries rooms ->
  obj_get (fst (disconnect_loop entries rooms sid)) code = Some room' ->
  exists room,
    obj_get rooms code = Some room /\
    (room' = room \/
     room' = set_playerCount
               (set_players room (obj_delete (players room) sid))
               (playerCount room - 1)).
Proof.
  intros Hkeys. induction entries as [|[code0 room0] rest IH];
    simpl; intros Hincl Hget.
  - exists room'. now split; [|left].
  - destruct (obj_get (players room0) sid) as [p|] eqn:Hp.
    + destruct (Z.eq_dec (playerCount room0 - 1) 0) as [Hzero|Hleft].
      * unfold leave_room in Hget.
        cbn [players set_players set_playerCount playerCount] in Hget.
        rewrite Hzero in Hget. simpl in Hget.
        apply obj_get_delete_cases in Hget. exists room'.
        split; [apply Hget|now left].
      * rewrite Departure.leave_room_effect in Hget by assumption.
        simpl in Hget. apply obj_get_set_cases in Hget.
        destruct Hget as [[-> ->]|[_ Hget]].
        -- exists room0. split; [|now right].
           apply obj_get_entry; [exact Hkeys|]. apply Hincl. now left.
        -- exists room'. now split; [|left].
    + apply IH; [|exact Hget]. intros e He. apply Hincl. now right.
Qed.

Lemma handle_evolves (rooms : Rooms) (sid : string) (req : Request)
  (code : string) (room' : Room) :
  NoDup (obj_keys rooms) ->
  (forall n, req <> CreateRoom n code) ->
  obj_get (rooms_of (handle rooms sid req)) code = Some room' ->
  exists room, obj_get rooms code = Some room /\ evolves room room'.
Proof.
  intros Hkeys Hreq.
  assert (Hsame : obj_get rooms code = Some room' ->
                  exists room, obj_get rooms code = Some room /\
                               evolves room room')
    by (intros H; exists room'; split; [exact H|apply evolves_refl]).
  destruct req as [playerName code2|code2 playerName|code2|code2 d|code2 idx|];
    simpl.
  - intros Hget. apply obj_get_set_cases in Hget.
    destruct Hget as [[-> _]|[_ Hget]]; [|now apply Hsame].
    now destruct (Hreq playerName).
  - unfold join_room.
    destruct (obj_get rooms code2) as [room0|] eqn:Hroom0; [|exact Hsame].
    destruct (playerCount room0 >=? 4); [exact Hsame|].
    destruct (gameStarted room0) eqn:Hopen; [exact Hsame|].
    cbn [rooms_of]. intros Hget. apply obj_get_set_cases in Hget.
    destruct Hget as [[-> ->]|[_ Hget]]; [|now apply Hsame].
    exists room0. split; [exact Hroom0|]. split; [reflexivity|].
    intros Hs. congruence.
  - unfold start_game.
    destruct (obj_get rooms code2) as [room0|] eqn:Hroom0; [|exact Hsame].
    destruct (negb (isHost_of (players room0) sid)); [exact Hsame|].
    destruct (playerCount room0 <? 2); [exact Hsame|].
    cbn [rooms_of]. intros Hget. apply obj_get_set_cases in Hget.
    destruct Hget as [[-> ->]|[_ Hget]]; [|now apply Hsame].
    exists room0. split; [exact Hroom0|]. split; [reflexivity|].
    intros _. split; [reflexivity|auto].
  - unfold roll_dice.
    destruct (obj_get rooms code2) as [room0|] eqn:Hroom0; [|exact Hsame].
    destruct (negb (gameStarted room0)); [exact Hsame|].
    destruct (not_current sid room0); [exact Hsame|].
    cbn [players set_lastRoll set_diceValue pieces].
    destruct (obj_get (players room0) sid) as [player|];
      [destruct (color player) as [c|];
       [destruct ((List.length _ =? 0)%nat && negb (d =? 6))|]|];
      cbn [rooms_of]; intros Hget; apply obj_get_set_cases in Hget;
      (destruct Hget as [[-> ->]|[_ Hget]]; [|now apply Hsame]);
      (exists room0; split; [exact Hroom0|]; split; [reflexivity|];
       intros Hs; split; [exact Hs|auto]).
  - destruct (Moves.move_piece_cases rooms sid code2 idx)
      as [H|[H|[[H _]|H]]]; try (rewrite H; exact Hsame).
    destruct H as (room0 & player & c & piece & piece1 & ps2 & cap & H).
    destruct H as (Hroom0 & _ & _ & _ & _ & _ & _ & _ & _ & H).
    rewrite H. cbn [rooms_of]. intros Hget. apply obj_get_set_cases in Hget.
    destruct Hget as [[-> ->]|[_ Hget]]; [|now apply Hsame].
    exists room0. split; [exact Hroom0|]. unfold after_move.
    destruct (negb _ || _); (split; [reflexivity|]);
      intros Hs; (split; [exact Hs|auto]).
  - unfold disconnect. intros Hget.
    assert (Hloop : obj_get (fst (disconnect_loop rooms rooms sid)) code
                    = Some room')
      by (destruct (disconnect_loop rooms rooms sid); exact Hget).
    apply disconnect_loop_get in Hloop;
      [|exact Hkeys|intros e He; exact He].
    destruct Hloop as (room & Hroom & [-> | ->]).
    + exists room. split; [exact Hroom|apply evolves_refl].
    + exists room. split; [exact Hroom|]. split; [reflexivity|].
      intros Hs. split; [exact Hs|].
      cbn [players set_players set_playerCount]. intros k p Hk.
      now apply obj_get_delete_cases in Hk.
Qed.

(** X14: no request other than a create-room for that code makes a code
    name a room it did not name before; the room keeps its [roomCode];
    and once its game has started it stays started and lists no player
    it did not list before, each with the same name, colour and host
    flag. *)
Theorem room_evolves (rooms : Rooms) (sid : string) (req : Request)
  (code : string) (room' : Room) :
  reachable rooms ->
  (forall n, req <> CreateRoom n code) ->
  obj_get (rooms_of (handle rooms sid req)) code = Some room' ->
  exists room, obj_get rooms code = Some room /\ evolves room room'.
Proof.
  intros Hreach. apply handle_evolves.
  apply (Soundness.reachable_registry_ok _ Hreach).
Qed.

Lemma room_evolves_witness :
  exists room,
    obj_get (run [] game_alice_bob) "R1" = Some room /\
    exists room',
      obj_get (rooms_of (handle (run [] game_alice_bob) "B" Disconnect)) "R1"
      = Some room' /\
      evolves room room'.
Proof.
  destruct (obj_get (rooms_of (handle (run [] game_alice_bob) "B" Disconnect))
                    "R1") as [room'|] eqn:Hroom';
    [|cbv in Hroom'; discriminate].
  destruct (room_evolves (run [] game_alice_bob) "B" Disconnect "R1" room'
              Guarantees.game_alice_bob_reachable
              ltac:(intros n; discriminate) Hroom')
    as (room & Hroom & Hev).
  exists room. split; [exact Hroom|]. exists room'. now split.
Defined.

(** X15: roll-dice never moves a piece and never changes who is in a
    room: whatever room a code names afterwards, the code named a room
    before with the same pieces, players, [playerCount] and
    [gameStarted]. *)
Theorem roll_dice_frame (rooms : Rooms) (sid code : string) (d : Z)
  (code' : string) (room' : Room) :
  obj_get (rooms_of (roll_dice rooms sid code d)) code' = Some room' ->
  exists room,
    obj_get rooms code' = Some room /\
    pieces room' = pieces room /\ players room' = players room /\
    playerCount room' = playerCount room /\
    gameStarted room' = gameStarted room.
Proof.
  assert (Hsame : obj_get rooms code' = Some room' ->
                  exists room,
                    obj_get rooms code' = Some room /\
                    pieces room' = pieces room /\
                    players room' = players room /\
                    playerCount room' = playerCount room /\
                    gameStarted room' = gameStarted room)
    by (intros H; exists room'; repeat split; exact H).
  unfold roll_dice.
  destruct (obj_get rooms code) as [room0|] eqn:Hroom0; [|exact Hsame].
  destruct (negb (gameStarted room0)); [exact Hsame|].
  destruct (not_current sid room0); [exact Hsame|].
  cbn [players set_lastRoll set_diceValue pieces].
  destruct (obj_get (players room0) sid) as [player|];
    [destruct (color player) as [c|];
     [destruct ((List.length _ =? 0)%nat && negb (d =? 6))|]|];
    cbn [rooms_of]; intros Hget; apply obj_get_set_cases in Hget;
    (destruct Hget as [[-> ->]|[_ Hget]]; [|now apply Hsame]);
    (exists room0; repeat split; exact Hroom0).
Qed.

Lemma roll_dice_frame_witness :
  exists room room',
    obj_get (run [] game_alice_bob) "R1" = Some room /\
    obj_get (rooms_of (roll_dice (run [] game_alice_bob) "A" "R1" 6)) "R1"
    = Some room' /\
    pieces room' = pieces room /\ players room' = players room.
Proof.
  destruct (obj_get (rooms_of (roll_dice (run [] game_alice_bob) "A" "R1" 6))
                    "R1") as [room'|] eqn:Hroom';
    [|cbv in Hroom'; discriminate].
  destruct (roll_dice_frame (run [] game_alice_bob) "A" "R1" 6 "R1" room'
              Hroom')
    as (room & Hroom & Hpieces & Hplayers & _).
  exists room, room'. repeat split; assumption.
Defined.

(** X16: move-piece never changes who is in a room, whether its game
    has started, or the die: whatever room a code names afterwards, the
    code named a room before with the same players, [playerCount],
    [gameStarted], [diceValue] and [lastRoll]. *)
Theorem move_piece_frame (rooms : Rooms) (sid code : string) (idx : Z)
  (code' : string) (room' : Room) :
  obj_get (rooms_of (move_piece rooms sid code idx)) code' = Some room' ->
  exists room,
    obj_get rooms code' = Some room /\
    players room' = players room /\
    playerCount room' = playerCount room /\
    gameStarted room' = gameStarted room /\
    diceValue room' = diceValue room /\ lastRoll room' = lastRoll room.
Proof.
  assert (Hsame : obj_get rooms code' = Some room' ->
                  exists room,
                    obj_get rooms code' = Some room /\
                    players room' = players room /\
                    playerCount room' = playerCount room /\
                    gameStarted room' = gameStarted room /\
                    diceValue room' = diceValue room /\
                    lastRoll room' = lastRoll room)
    by (intros H; exists room'; repeat split; exact H).
  destruct (Moves.move_piece_cases rooms sid code idx)
    as [H|[H|[[H _]|H]]]; try (rewrite H; exact Hsame).
  destruct H as (room0 & player & c & piece & piece1 & ps2 & cap & H).
  destruct H as (Hroom0 & _ & _ & _ & _ & _ & _ & _ & _ & H).
  rewrite H. cbn [rooms_of]. intros Hget. apply obj_get_set_cases in Hget.
  destruct Hget as [[-> ->]|[_ Hget]]; [|now apply Hsame].
  exists room0. unfold after_move.
  destruct (negb _ || _); repeat split; exact Hroom0.
Qed.

Lemma move_piece_frame_witness :
  exists room room',
    obj_get (run [] alice_rolls_six) "R1" = Some room /\
    obj_get (rooms_of (move_piece (run [] alice_rolls_six) "A" "R1" 0)) "R1"
    = Some room' /\
    players room' = players room /\ lastRoll room' = lastRoll room.
Proof.
  destruct (obj_get (rooms_of (move_piece (run [] alice_rolls_six) "A" "R1" 0))
                    "R1") as [room'|] eqn:Hroom';
    [|cbv in Hroom'; discriminate].
  destruct (move_piece_frame (run [] alice_rolls_six) "A" "R1" 0 "R1" room'
              Hroom')
    as (room & Hroom & Hplayers & _ & _ & _ & Hlast).
  exists room, room'. repeat split; assumption.
Defined.

Lemma disconnect_loop_find (entries : list (string * Room)) (rooms : Rooms)
  (sid : string) :
  disconnect_loop entries rooms sid =
  match find (holds sid) entries with
  | Some (code, room) => leave_room rooms sid code room
  | None => (rooms, [])
  end.
Proof.
  induction entries as [|[code room] rest IH]; simpl; [reflexivity|].
  unfold holds at 1. simpl.
  destruct (obj_get (players room) sid); [reflexivity|exact IH].
Qed.

(** X17: disconnect acts on the first room, in registry order, that
    lists the socket, and on no other.  If there is none, nothing
    changes and nothing is emitted.  If that room's [playerCount] is 1
    the room is deleted, silently.  Otherwise the socket's entry is
    removed, [playerCount] drops by one, [player-left] goes to the room,
    and every other field (other players with their host flags, pieces,
    turn index) is as before. *)
Theorem disconnect_spec (rooms : Rooms) (sid : string) :
  disconnect rooms sid =
  match find (holds sid) rooms with
  | None => Returned rooms []
  | Some (code, room) =>
      if playerCount room =? 1 then Returned (obj_delete rooms code) []
      else
        Returned
          (obj_set rooms code
             (set_playerCount
                (set_players room (obj_delete (players room) sid))
                (playerCount room - 1)))
          [ToRoom code (player_left sid)]
  end.
Proof.
  unfold disconnect. rewrite disconnect_loop_find.
  destruct (find (holds sid) rooms) as [[code room]|]; [|reflexivity].
  destruct (playerCount room =? 1) eqn:Hlast.
  - apply Z.eqb_eq in Hlast. unfold leave_room.
    cbn [players set_players set_playerCount playerCount].
    rewrite Hlast. reflexivity.
  - apply Z.eqb_neq in Hlast.
    rewrite Departure.leave_room_effect by lia. reflexivity.
Qed.

Lemma obj_keys_set_absent {V} (o : Obj V) (k : string) (v : V) :
  obj_get o k = None -> obj_keys (obj_set o k v) = (obj_keys o ++ [k])%list.
Proof.
  induction o as [|[k0 v0] t IH]; simpl; [reflexivity|].
  destruct (String.eqb k0 k); [discriminate|]. simpl.
  intros H. now rewrite IH.
Qed.

(** X21: a socket not yet listed that joins an open room is put last in
    the key order, which is the turn order, with [isHost] false; every
    player already listed keeps their place and their entry, and
    [playerCount] goes up by one. *)
Theorem join_appends_player (rooms : Rooms) (sid code playerName : string)
  (room : Room) :
  obj_get rooms code = Some room ->
  playerCount room < 4 -> gameStarted room = false ->
  obj_get (players room) sid = None ->
  exists room' p',
    obj_get (rooms_of (join_room rooms sid code playerName)) code
    = Some room' /\
    obj_keys (players room') = (obj_keys (players room) ++ [sid])%list /\
    obj_get (players room') sid = Some p' /\
    name p' = playerName /\ isHost p' = false /\
    (forall k, k <> sid ->
               obj_get (players room') k = obj_get (players room) k) /\
    playerCount room' = playerCount room + 1 /\
    pieces room' = pieces room /\ currentPlayer room' = currentPlayer room.
Proof.
  intros Hroom Hcount Hopen Hnew. unfold join_room. rewrite Hroom, Hopen.
  replace (playerCount room >=? 4) with false
    by (symmetry; rewrite Z.geb_leb; apply Z.leb_gt; lia).
  cbn [rooms_of]. eexists. eexists.
  split; [apply obj_get_set_same|].
  cbn [players set_players set_playerCount playerCount pieces currentPlayer].
  split; [now apply obj_keys_set_absent|].
  split; [apply obj_get_set_same|].
  do 2 (split; [reflexivity|]).
  split; [intros k Hk; now apply obj_get_set_other|].
  repeat split.
Qed.

Lemma join_appends_player_witness :
  exists room' p',
    obj_get (rooms_of (join_room (run [] lobby_alice) "B" "R1" "Bob")) "R1"
    = Some room' /\
    obj_keys (players room') = ["A"; "B"] /\
    obj_get (players room') "B" = Some p' /\ isHost p' = false.
Proof.
  destruct (obj_get (run [] lobby_alice) "R1") as [room|] eqn:Hroom;
    [|cbv in Hroom; discriminate].
  pose proof Hroom as Hvalue. cbv in Hvalue. injection Hvalue as <-.
  destruct (join_appends_player (run [] lobby_alice) "B" "R1" "Bob" _ Hroom
              ltac:(simpl; lia) eq_refl eq_refl)
    as (room' & p' & Hroom' & Hkeys & Hp' & _ & Hhost & _).
  exists room', p'. repeat split; assumption.
Defined.

End Lifecycle.

(** * Rolling and moving together *)

Module Play.






(** X19: every request except a disconnect keeps the turn index of every
    room at or above 0 and below its [playerCount]. *)
Theorem turn_index_kept_in_range (rooms : Rooms) (sid : string)
  (req : Request) :
  req <> Disconnect ->
  Forall turn_in_range (obj_values rooms) ->
  Forall turn_in_range (obj_values (rooms_of (handle rooms sid req))).
Proof. exact (Turn.handle_keeps_turn_in_range rooms sid req). Qed.

Lemma turn_index_kept_in_range_witness :
  Forall turn_in_range
    (obj_values (rooms_of (handle (run [] game_alice_bob) "A"
                                  (RollDice "R1" 3)))).
Proof.
  apply (turn_index_kept_in_range (run [] game_alice_bob) "A"
           (RollDice "R1" 3)); [discriminate|].
  repeat constructor; vm_compute; congruence.
Defined.

(** X20: when move-piece answers the requester with a [game-error], the
    message is "Invalid move", it is the only event, and the registry is
    unchanged; "Cannot move this piece" is never sent. *)
Theorem refused_move_changes_nothing (rooms rooms' : Rooms)
  (sid roomCode : string) (pieceIndex : Z) (out : list Emit)
  (to msg : string) :
  move_piece rooms sid roomCode pieceIndex = Returned rooms' out ->
  In (ToSocket to (game_error msg)) out ->
  rooms' = rooms /\ out = [ToSocket sid (game_error "Invalid move")].
Proof.
  exact (Moves.move_piece_refused rooms rooms' sid roomCode pieceIndex out
           to msg).
Qed.

Lemma refused_move_changes_nothing_witness :
  rooms_of (move_piece (run [] game_alice_bob) "A" "R1" 0)
  = run [] game_alice_bob /\
  events_of (move_piece (run [] game_alice_bob) "A" "R1" 0)
  = [ToSocket "A" (game_error "Invalid move")].
Proof.
  apply (refused_move_changes_nothing (run [] game_alice_bob)
           (rooms_of (move_piece (run [] game_alice_bob) "A" "R1" 0))
           "A" "R1" 0
           (events_of (move_piece (run [] game_alice_bob) "A" "R1" 0))
           "A" "Invalid move").
  - vm_compute. reflexivity.
  - vm_compute. left. reflexivity.
Defined.

End Play.
